(** * ColumnScrollLogger (yourcode.js): a shallow embedding and its properties

    The script builds one [ColumnScrollLogger].  Its constructor captures the
    elements matching [.column], attaches three once-only listeners to each of
    them and subscribes [checkColumnPosition] to the window's scroll and
    resize events.  Every later event runs [checkColumnPosition] against the
    geometry the host reports at that moment.

    The embedding keeps the shape of the source:
    - a JavaScript number is an IEEE 754 binary64 value ([spec_float]);
    - the host (window, document, elements) is a read-only snapshot taken at
      each event; a host query is a computation that may throw;
    - the listener registry of the elements and the console are the mutable
      store that is threaded through the calls;
    - a method that calls itself uses one frame of the engine's call stack
      per call, and a call with no frame left throws [RangeError]. *)

From Stdlib Require Import ZArith String List Bool Floats.SpecFloat.
From stdpp Require Import base option list gmap strings.

(** ** JavaScript numbers *)

Module Number.

Definition t := spec_float.

Definition prec : Z := 53.
Definition emax : Z := 1024.

(** The number denoted by an integer literal. *)
Definition of_Z (z : Z) : t := binary_normalize prec emax z 0 false.

Definition zero : t := S754_zero false.
Definition two : t := of_Z 2.

Definition add (x y : t) : t := SFadd prec emax x y.
Definition div (x y : t) : t := SFdiv prec emax x y.

(** [x < y], [x > y] and [x <= y]; each is false when an operand is NaN. *)
Definition lt (x y : t) : bool := SFltb x y.
Definition gt (x y : t) : bool := SFltb y x.
Definition le (x y : t) : bool := SFleb x y.

(** [x == y] on numbers: [+0] and [-0] are equal, NaN equals nothing. *)
Definition eq (x y : t) : bool := SFeqb x y.

Definition isNaN (x : t) : bool :=
  match x with S754_nan => true | _ => false end.

(** ToBoolean: [+0], [-0] and NaN are falsy. *)
Definition ToBoolean (x : t) : bool :=
  match x with
  | S754_zero _ | S754_nan => false
  | _ => true
  end.

(** [x || y] on two numbers. *)
Definition or (x y : t) : t := if ToBoolean x then x else y.

(** ToNumber of a field that holds [null] or a number: [null] is [+0]. *)
Definition of_nullable (x : option t) : t := default zero x.

(** [Math.max(x, y)]: NaN if an operand is NaN, and [+0] above [-0]. *)
Definition max (x y : t) : t :=
  match x, y with
  | S754_nan, _ | _, S754_nan => S754_nan
  | S754_zero sx, S754_zero sy => S754_zero (sx && sy)
  | _, _ => if SFltb x y then y else x
  end.

End Number.

(** ** Completions: a call returns normally or throws *)

Inductive Exception :=
| TypeError
| RangeError
| HostError (name : string).

Inductive completion (A : Type) :=
| Normal (a : A)
| Throw (e : Exception).

Arguments Normal {A} a.
Arguments Throw {A} e.

Definition bind {A B} (c : completion A) (k : A -> completion B) : completion B :=
match c with
| Normal a => k a
| Throw e => Throw e
end.

Notation "'let!' x ':=' c 'in' k" := (bind c (fun x => k))
  (at level 10, x name, c at level 100, k at level 200).

(** The two values [isHidden] can return. *)
Inductive value :=
| undefined
| boolean (b : bool).

Definition ToBoolean (v : value) : bool :=
match v with
| undefined => false
| boolean b => b
end.

(** ** The host: elements, window *)

(** An element handle; the same handle names the same element at every event. *)
Definition Node := nat.

Module DOMRect.
Record t := mk { top : Number.t; height : Number.t; bottom : Number.t }.
End DOMRect.

Module CSSStyleDeclaration.
Record t := mk { display : string }.
End CSSStyleDeclaration.

Module Element.

(** What the host answers about one element at one event: its [id] content
    attribute (absent or a string), the two queries the source makes, and
    its parent element, which is again such an answer.  The parent chain of
    an element of a document is finite, as the chain of this type is. *)
#[local] Unset Elimination Schemes.
Inductive t := mk {
  id_attribute : option string;
  getBoundingClientRect : completion DOMRect.t;
  getComputedStyle : completion CSSStyleDeclaration.t;
  parentElement : option t
}.
#[local] Set Elimination Schemes.

(** [el.id] reflects the content attribute: the empty string when absent. *)
Definition id (el : t) : string := default "" (id_attribute el).

(** The element with its ancestors, nearest first. *)
Fixpoint chain (el : t) : list t :=
  match el with
  | mk _ _ _ None => [el]
  | mk _ _ _ (Some p) => el :: chain p
  end.

(** The computed display of the element is ["none"]. *)
Definition displayNone (el : t) : Prop :=
  exists style, getComputedStyle el = Normal style
                /\ CSSStyleDeclaration.display style = "none".

End Element.

Module Window.
Record t := mk {
  innerHeight : Number.t;
  pageYOffset : Number.t;
  (** [document.documentElement.scrollTop] *)
  scrollTop : Number.t;
  (** the frames the engine's call stack has left for the calls of
      [isHidden] when a callback of this event makes the first one *)
  stackFrames : nat;
  (** [document.querySelectorAll(selector)] *)
  querySelectorAll : string -> list Node;
  (** the element a handle denotes, as it is at this event *)
  element : Node -> Element.t
}.
End Window.

(** ** Events and listeners *)

(** The keys of [events] and of [messages]. *)
Inductive position :=
  | start
  | center
  | end_.

#[global] Instance position_eq_dec : EqDecision position.
Proof. solve_decision. Defined.

Inductive direction :=
  | down
  | up.

Module Event.
Record t := mk { type : string }.
End Event.

(** The field [events] of the class. *)
Definition events (p : position) : Event.t :=
  match p with
  | start => Event.mk "columnStartVisible"
  | center => Event.mk "columnCenterVisible"
  | end_ => Event.mk "columnEndVisible"
  end.

(** The arrow function [() => this.logStatus(position, id)] with the two
    variables it closes over. *)
Module Callback.
Record t := mk { position : position; id : string }.
End Callback.

(** An entry of an element's listener list. *)
Module EventListener.
Record t := mk { type : string; callback : Callback.t; once : bool }.
End EventListener.

(** One console line, with the element and the event type whose listener
    printed it. *)
Module Delivery.
Record t := mk { target : Node; type : string; line : string }.
End Delivery.

(** The instance fields. [null] is [None]. *)
Module ColumnScrollLogger.
Record t := mk {
  columns : list Node;
  scrollDirection : option direction;
  lastScrollStart : option Number.t
}.
End ColumnScrollLogger.

(** The mutable store: the instance, the listener lists of the elements and
    what the console has printed, oldest line first. *)
Module World.
Record t := mk {
  this : ColumnScrollLogger.t;
  listeners : gmap Node (list EventListener.t);
  console : list Delivery.t
}.
End World.

Definition listenersOf (w : World.t) (el : Node) : list EventListener.t :=
  default [] (World.listeners w !! el).

(** ** The methods of the class *)

(** The object [messages] of [logStatus], indexed by position. *)
Definition messages (id : string) (p : position) : string :=
  match p with
  | start => "Column with id:" +:+ id +:+ " started to become visible on the page."
  | center => "Column with id:" +:+ id +:+ " is now more than 50% visible on the page."
  | end_ => "Column with id:" +:+ id +:+ " is now fully visible on the page."
  end.

(** [logStatus(position, id)]: the line handed to [console.log]. *)
Definition logStatus (p : position) (id : string) : string := messages id p.

Definition call (cb : Callback.t) : string :=
  logStatus (Callback.position cb) (Callback.id cb).

(** [el.addEventListener(type, callback, { once })]: every callback of the
    source is a fresh closure, so the listener is appended. *)
Definition addEventListener (el : Node) (l : EventListener.t) (w : World.t) : World.t :=
  World.mk (World.this w)
           (<[el := listenersOf w el ++ [l]]> (World.listeners w))
           (World.console w).

Definition listens (ty : string) (l : EventListener.t) : bool :=
  String.eqb (EventListener.type l) ty.

(** [el.dispatchEvent(ev)] for an event that does not bubble: the listeners
    of [el] for the type of [ev] run in the order they were added, and one
    added with [once] leaves the list when it runs. *)
Definition dispatchEvent (el : Node) (ev : Event.t) (w : World.t) : World.t :=
  let ls := listenersOf w el in
  let ty := Event.type ev in
  let invoked := List.filter (listens ty) ls in
  let remaining :=
    List.filter (fun l => negb (listens ty l && EventListener.once l)) ls in
  World.mk (World.this w)
           (<[el := remaining]> (World.listeners w))
           (World.console w
              ++ map (fun l => Delivery.mk el ty (call (EventListener.callback l))) invoked).

(** The body of the [forEach] callback of [getColumns]. *)
Definition attach (h : Window.t) (el : Node) (w : World.t) : World.t :=
  let id := Element.id (Window.element h el) in
  let w := addEventListener el
    (EventListener.mk (Event.type (events start)) (Callback.mk start id) true) w in
  let w := addEventListener el
    (EventListener.mk (Event.type (events center)) (Callback.mk center id) true) w in
  addEventListener el
    (EventListener.mk (Event.type (events end_)) (Callback.mk end_ id) true) w.

Definition getColumns (h : Window.t) (w : World.t) : list Node * World.t :=
  let columns := Window.querySelectorAll h ".column" in
  (columns, fold_left (fun w el => attach h el w) columns w).

(** [new ColumnScrollLogger()] in a page whose elements have no listener yet:
    the field initialisers, then the constructor body. *)
Definition constructor (h : Window.t) : World.t :=
  let w0 := World.mk (ColumnScrollLogger.mk [] None None) ∅ [] in
  let '(columns, w) := getColumns h w0 in
  World.mk (ColumnScrollLogger.mk columns None None)
           (World.listeners w) (World.console w).

(** The constant [st] of [getScrollDirection]:
    [window.pageYOffset || document.documentElement.scrollTop]. *)
Definition st (h : Window.t) : Number.t :=
  Number.or (Window.pageYOffset h) (Window.scrollTop h).

(** [getScrollDirection()]: [st > this.lastScrollStart] compares with [+0]
    while the field is [null]; the field then becomes [st <= 0 ? 0 : st]. *)
Definition getScrollDirection (h : Window.t) (this : ColumnScrollLogger.t)
  : ColumnScrollLogger.t :=
  let st := st h in
  let scrollDirection :=
    if Number.gt st (Number.of_nullable (ColumnScrollLogger.lastScrollStart this))
    then down else up in
  ColumnScrollLogger.mk
    (ColumnScrollLogger.columns this)
    (Some scrollDirection)
    (Some (if Number.le st Number.zero then Number.zero else st)).

(** [isHidden(el)] with [frames] frames left on the call stack: [true] when
    the element or, going up, a parent has computed display ["none"]; with no
    parent left the function falls off its end and the result is
    [undefined].  The method calls itself for the parent, so every element
    walked holds a frame, and the call for which no frame is left throws
    [RangeError]. *)
Fixpoint isHidden (frames : nat) (el : Element.t) : completion value :=
  match frames with
  | O => Throw RangeError
  | S frames =>
      match el with
      | Element.mk _ _ computed parent =>
          let! style := computed in
          let _isHidden := String.eqb (CSSStyleDeclaration.display style) "none" in
          if _isHidden then Normal (boolean true)
          else match parent with
               | Some parent => isHidden frames parent
               | None => Normal undefined
               end
      end
  end.

(** One row of the object [predictates]. *)
Module Predicates.
Record t := mk {
  isStartVisible : bool;
  isCenterVisible : bool;
  isEndVisible : bool
}.
End Predicates.

Definition predictates (viewportHeight colStart colCenter colEnd : Number.t)
  (d : direction) : Predicates.t :=
  match d with
  | down =>
      Predicates.mk
        (Number.lt Number.zero colStart && Number.lt colStart viewportHeight)
        (Number.lt Number.zero colCenter && Number.lt colCenter viewportHeight)
        (Number.lt Number.zero colEnd && Number.lt colEnd viewportHeight)
  | up =>
      Predicates.mk
        (Number.lt Number.zero colEnd && Number.lt colEnd viewportHeight)
        (Number.lt Number.zero colCenter && Number.lt colCenter viewportHeight)
        (Number.lt Number.zero colStart && Number.lt colStart viewportHeight)
  end.

Definition colCenter (rect : DOMRect.t) : Number.t :=
  Number.add (DOMRect.top rect) (Number.div (DOMRect.height rect) Number.two).

(** The body of the [forEach] callback of [checkColumnPosition].  The two
    host queries come first, so a callback that throws has changed nothing. *)
Definition checkColumn (h : Window.t) (el : Node) (w : World.t) : completion World.t :=
  let viewportHeight := Window.innerHeight h in
  let! rect := Element.getBoundingClientRect (Window.element h el) in
  let colStart := DOMRect.top rect in
  let colCenter := colCenter rect in
  let colEnd := DOMRect.bottom rect in
  let! hidden := isHidden (Window.stackFrames h) (Window.element h el) in
  let isVisible := negb (ToBoolean hidden) in
  let predictates := predictates viewportHeight colStart colCenter colEnd in
  if isVisible then
    match ColumnScrollLogger.scrollDirection (World.this w) with
    | None => Throw TypeError
    | Some d =>
        let w := if Predicates.isStartVisible (predictates d)
                 then dispatchEvent el (events start) w else w in
        let w := if Predicates.isCenterVisible (predictates d)
                 then dispatchEvent el (events center) w else w in
        let w := if Predicates.isEndVisible (predictates d)
                 then dispatchEvent el (events end_) w else w in
        Normal w
    end
  else Normal w.

(** [columns.forEach(f)]: a callback that throws ends the loop, and what the
    earlier callbacks did stays done. *)
Fixpoint forEach (f : Node -> World.t -> completion World.t) (columns : list Node)
  (w : World.t) : World.t * completion unit :=
  match columns with
  | [] => (w, Normal tt)
  | el :: columns =>
      match f el w with
      | Normal w => forEach f columns w
      | Throw e => (w, Throw e)
      end
  end.

(** [checkColumnPosition()]: the store it leaves and how it completes. *)
Definition checkColumnPosition (h : Window.t) (w : World.t) : World.t * completion unit :=
  let w := World.mk (getScrollDirection h (World.this w))
                    (World.listeners w) (World.console w) in
  forEach (checkColumn h) (ColumnScrollLogger.columns (World.this w)) w.

(** The event loop: each scroll or resize event runs the handler against the
    host as it is then; an exception that escapes the handler is reported by
    the host and the loop goes on. *)
Definition handleEvent (w : World.t) (h : Window.t) : World.t :=
  fst (checkColumnPosition h w).

Definition run (h0 : Window.t) (signals : list Window.t) : World.t :=
  fold_left handleEvent signals (constructor h0).

(** ** Sample pages *)

Definition rectangle (top height : Z) : DOMRect.t :=
  DOMRect.mk (Number.of_Z top) (Number.of_Z height) (Number.of_Z (top + height)).

Definition display_block : CSSStyleDeclaration.t := CSSStyleDeclaration.mk "block".
Definition display_none : CSSStyleDeclaration.t := CSSStyleDeclaration.mk "none".

(** The root element, displayed. *)
Definition html : Element.t :=
  Element.mk None (Normal (rectangle 0 0)) (Normal display_block) None.

(** A displayed [.column] child of the root. *)
Definition column (id : string) (top height : Z) : Element.t :=
  Element.mk (Some id) (Normal (rectangle top height)) (Normal display_block) (Some html).

(** The frames the sample pages have for [isHidden]. *)
Definition sampleFrames : nat := 1000.

(** A page whose [.column] elements are [cols], with handles [0], [1], ... *)
Definition page (viewportHeight offset : Z) (cols : list Element.t) : Window.t :=
  Window.mk (Number.of_Z viewportHeight) (Number.of_Z offset) Number.zero sampleFrames
            (fun selector => if String.eqb selector ".column" then seq 0 (length cols) else [])
            (fun el => nth el cols html).

Definition lines (w : World.t) : list string := map Delivery.line (World.console w).

(** ** The specification's vocabulary *)

(** The containment test of the specification: [0 < x < viewportHeight]. *)
Definition within (viewportHeight x : Number.t) : bool :=
  Number.lt Number.zero x && Number.lt x viewportHeight.

(** The geometric point the specification assigns to a position under a
    scroll direction. *)
Definition point (d : direction) (p : position) (rect : DOMRect.t) : Number.t :=
  match d, p with
  | down, start => DOMRect.top rect
  | down, end_ => DOMRect.bottom rect
  | up, start => DOMRect.bottom rect
  | up, end_ => DOMRect.top rect
  | _, center => colCenter rect
  end.

(** The entry of a row of [predictates] that the source reads for a position. *)
Definition isVisibleAt (p : position) (row : Predicates.t) : bool :=
  match p with
  | start => Predicates.isStartVisible row
  | center => Predicates.isCenterVisible row
  | end_ => Predicates.isEndVisible row
  end.

(** Step 2e of the specification for one rendered element: trigger the
    notifier of each position whose point is within the viewport. *)
Definition notify (viewportHeight : Number.t) (d : direction) (rect : DOMRect.t)
  (el : Node) (w : World.t) : World.t :=
  fold_left
    (fun w p => if within viewportHeight (point d p rect)
                then dispatchEvent el (events p) w else w)
    [start; center; end_] w.

(** The console lines an element's listener for a position has printed. *)
Definition delivered (w : World.t) (el : Node) (p : position) : list Delivery.t :=
  List.filter
    (fun d => Nat.eqb (Delivery.target d) el
              && String.eqb (Delivery.type d) (Event.type (events p)))
    (World.console w).

(** The listeners of an element for the event of a position. *)
Definition pending (w : World.t) (el : Node) (p : position) : list EventListener.t :=
  List.filter (listens (Event.type (events p))) (listenersOf w el).

(** Every listener in the store was added with [once]. *)
Definition allOnce (w : World.t) : Prop :=
  forall el l, In l (listenersOf w el) -> EventListener.once l = true.

(** The listeners still attached for a position, and the lines already
    printed for it, counted together. *)
Definition budget (w : World.t) (el : Node) (p : position) : nat :=
  length (pending w el p) + length (delivered w el p).

(** The three listeners [getColumns] attaches to an element. *)
Definition attached (h : Window.t) (el : Node) : list EventListener.t :=
  let id := Element.id (Window.element h el) in
  [EventListener.mk (Event.type (events start)) (Callback.mk start id) true;
   EventListener.mk (Event.type (events center)) (Callback.mk center id) true;
   EventListener.mk (Event.type (events end_)) (Callback.mk end_ id) true].

(** The element or one of its ancestors has computed display ["none"]. *)
Definition hiddenInChain (el : Element.t) : Prop :=
  Exists Element.displayNone (Element.chain el).

(** The host answers the style query for the element and all its ancestors. *)
Definition stylesAnswer (el : Element.t) : Prop :=
  Forall (fun a => exists style, Element.getComputedStyle a = Normal style)
         (Element.chain el).

(** The host answers every query the check makes about the element. *)
Definition answers (el : Element.t) : Prop :=
  (exists rect, Element.getBoundingClientRect el = Normal rect) /\ stylesAnswer el.

(** [root] below [n] displayed ancestors-to-be: an element whose parent chain
    reaches [root] after [n] steps. *)
Fixpoint descendant (n : nat) (root : Element.t) : Element.t :=
  match n with
  | O => root
  | S n => Element.mk None (Normal (DOMRect.mk Number.zero Number.zero Number.zero))
                      (Normal (CSSStyleDeclaration.mk "block"))
                      (Some (descendant n root))
  end.

(** Induction along the parent chain. *)
Fixpoint Element_parent_ind (P : Element.t -> Prop)
  (Hroot : forall i r c, P (Element.mk i r c None))
  (Hchild : forall i r c parent, P parent -> P (Element.mk i r c (Some parent)))
  (el : Element.t) : P el :=
  match el with
  | Element.mk i r c None => Hroot i r c
  | Element.mk i r c (Some parent) =>
      Hchild i r c parent (Element_parent_ind P Hroot Hchild parent)
  end.

(** A listener as [getColumns] attaches it to [el] in the page [h0]. *)
Definition attachedTo (h0 : Window.t) (el : Node) (l : EventListener.t) : Prop :=
  exists p, l = EventListener.mk (Event.type (events p))
                                 (Callback.mk p (Element.id (Window.element h0 el))) true.

(** A console line that is the message of a position for the identifier its
    target had in the page [h0]. *)
Definition templated (h0 : Window.t) (d : Delivery.t) : Prop :=
  exists p, Delivery.type d = Event.type (events p)
            /\ Delivery.line d
               = logStatus p (Element.id (Window.element h0 (Delivery.target d))).

(** A [.column] child of the root whose geometry query throws. *)
Definition faulty (id : string) : Element.t :=
  Element.mk (Some id) (Throw (HostError "getBoundingClientRect"))
             (Normal display_block) (Some html).

(** A [.column] without [id] attribute. *)
Definition anonymous (top height : Z) : Element.t :=
  Element.mk None (Normal (rectangle top height)) (Normal display_block) (Some html).

(** A displayed [.column] inside a parent whose display is ["none"]. *)
Definition collapsed : Element.t :=
  Element.mk None (Normal (rectangle 0 0)) (Normal display_none) (Some html).

Definition columnInCollapsed (id : string) (top height : Z) : Element.t :=
  Element.mk (Some id) (Normal (rectangle top height)) (Normal display_block)
             (Some collapsed).

(** The listeners still attached to the elements of a node list. *)
Definition attachedCount (w : World.t) (columns : list Node) : nat :=
  sum_list (map (fun el => length (listenersOf w el)) columns).

(** The console line the listener of [el] for position [p] prints, for the
    identifier [el] had in the page [h0]. *)
Definition lineOf (h0 : Window.t) (el : Node) (p : position) : Delivery.t :=
  Delivery.mk el (Event.type (events p))
              (logStatus p (Element.id (Window.element h0 el))).

(** ** Numbers: comparison at a boundary *)

(** Case analysis on a number: zero, infinity, NaN or finite, with its sign. *)
Ltac number_cases x :=
  let s := fresh "s" in
  destruct x as [s|s| |s ? ?]; try destruct s; cbn.

Lemma eq_not_lt (x y : Number.t) : Number.eq x y = true -> Number.lt x y = false.
Proof.
  unfold Number.eq, Number.lt, SFeqb, SFltb.
  destruct (SFcompare x y) as [[]|]; intros H; try discriminate H; reflexivity.
Qed.

Lemma eq_zero_not_gt (x : Number.t) :
  Number.eq x Number.zero = true -> Number.lt Number.zero x = false.
Proof.
  number_cases x; intros H; try discriminate H; reflexivity.
Qed.

Lemma within_open (viewportHeight x : Number.t) :
  Number.eq x Number.zero = true \/ Number.eq x viewportHeight = true ->
  within viewportHeight x = false.
Proof.
  unfold within. intros [H|H].
  - now rewrite (eq_zero_not_gt x H).
  - rewrite (eq_not_lt x viewportHeight H). apply andb_false_r.
Qed.

Lemma predictates_within (viewportHeight : Number.t) (rect : DOMRect.t)
  (d : direction) (p : position) :
  isVisibleAt p (predictates viewportHeight (DOMRect.top rect) (colCenter rect)
                             (DOMRect.bottom rect) d)
  = within viewportHeight (point d p rect).
Proof. destruct d, p; reflexivity. Qed.

(** ** Events of distinct positions have distinct types *)

Lemma events_type_inj (p q : position) :
  String.eqb (Event.type (events p)) (Event.type (events q)) = true -> p = q.
Proof. destruct p, q; cbn; intros H; try discriminate H; reflexivity. Qed.

Lemma listens_other (ty ty' : string) (l : EventListener.t) :
  String.eqb ty ty' = false -> listens ty' l = true -> listens ty l = false.
Proof.
  unfold listens. intros Hne Hl. apply String.eqb_eq in Hl. now rewrite Hl, String.eqb_sym.
Qed.

(** ** What one dispatch does *)

Lemma filter_map_none {A B} (f : B -> bool) (g : A -> B) (l : list A) :
  (forall a, In a l -> f (g a) = false) -> List.filter f (map g l) = [].
Proof.
  induction l as [|a l IH]; cbn; intros H; [reflexivity|].
  rewrite (H a (or_introl eq_refl)). apply IH. intros b Hb. apply H. now right.
Qed.

Lemma filter_map_all {A B} (f : B -> bool) (g : A -> B) (l : list A) :
  (forall a, In a l -> f (g a) = true) -> List.filter f (map g l) = map g l.
Proof.
  induction l as [|a l IH]; cbn; intros H; [reflexivity|].
  rewrite (H a (or_introl eq_refl)). f_equal. apply IH. intros b Hb. apply H. now right.
Qed.

Lemma filter_none {A} (f : A -> bool) (l : list A) :
  (forall a, In a l -> f a = false) -> List.filter f l = [].
Proof.
  induction l as [|a l IH]; cbn; intros H; [reflexivity|].
  rewrite (H a (or_introl eq_refl)). apply IH. intros b Hb. apply H. now right.
Qed.

Lemma listenersOf_dispatch_same (el : Node) (ev : Event.t) (w : World.t) :
  listenersOf (dispatchEvent el ev w) el
  = List.filter (fun l => negb (listens (Event.type ev) l && EventListener.once l))
                (listenersOf w el).
Proof. unfold listenersOf at 1, dispatchEvent. cbn. now rewrite lookup_insert_eq. Qed.

Lemma listenersOf_dispatch_other (el el' : Node) (ev : Event.t) (w : World.t) :
  el <> el' -> listenersOf (dispatchEvent el ev w) el' = listenersOf w el'.
Proof.
  intros Hne. unfold listenersOf, dispatchEvent. cbn. now rewrite lookup_insert_ne.
Qed.

(** The lines a dispatch prints are those of the listeners of the target for
    the type of the event. *)
Lemma delivered_dispatch_same (el : Node) (p : position) (w : World.t) :
  delivered (dispatchEvent el (events p) w) el p
  = delivered w el p
    ++ map (fun l => Delivery.mk el (Event.type (events p)) (call (EventListener.callback l)))
           (List.filter (listens (Event.type (events p))) (listenersOf w el)).
Proof.
  unfold delivered, dispatchEvent. cbn [World.console].
  rewrite List.filter_app. f_equal. apply filter_map_all.
  intros l _. cbn. now rewrite Nat.eqb_refl, String.eqb_refl.
Qed.

Lemma delivered_dispatch_other (el el' : Node) (p p' : position) (w : World.t) :
  el <> el' \/ p <> p' ->
  delivered (dispatchEvent el (events p) w) el' p' = delivered w el' p'.
Proof.
  intros Hne. unfold delivered, dispatchEvent. cbn [World.console].
  rewrite List.filter_app, filter_map_none; [apply app_nil_r|].
  intros l _. cbn [Delivery.target Delivery.type].
  destruct (Nat.eqb el el') eqn:He; [|reflexivity].
  destruct (String.eqb (Event.type (events p)) (Event.type (events p'))) eqn:Hp; [|reflexivity].
  apply Nat.eqb_eq in He. apply events_type_inj in Hp. destruct Hne; contradiction.
Qed.

(** ** What one callback, one check and one run do *)

Lemma notify_unfold (viewportHeight : Number.t) (d : direction) (rect : DOMRect.t)
  (el : Node) (w : World.t) :
  notify viewportHeight d rect el w
  = let step p w := if within viewportHeight (point d p rect)
                    then dispatchEvent el (events p) w else w in
    step end_ (step center (step start w)).
Proof. reflexivity. Qed.

(** A callback that returns has either left the store alone or notified a
    rendered element under the current direction. *)
Lemma checkColumn_Normal (h : Window.t) (el : Node) (w w' : World.t) :
  checkColumn h el w = Normal w' ->
  w' = w
  \/ exists d rect v,
       ColumnScrollLogger.scrollDirection (World.this w) = Some d
       /\ Element.getBoundingClientRect (Window.element h el) = Normal rect
       /\ isHidden (Window.stackFrames h) (Window.element h el) = Normal v
       /\ ToBoolean v = false
       /\ w' = notify (Window.innerHeight h) d rect el w.
Proof.
  unfold checkColumn.
  destruct (Element.getBoundingClientRect (Window.element h el)) as [rect|e]; cbn;
    [|discriminate].
  destruct (isHidden (Window.stackFrames h) (Window.element h el)) as [v|e]; cbn; [|discriminate].
  destruct (ToBoolean v) eqn:Hv; cbn.
  - intros [= <-]. now left.
  - destruct (ColumnScrollLogger.scrollDirection (World.this w)) as [d|]; [|discriminate].
    intros [= <-]. right. exists d, rect, v.
    do 3 (split; [reflexivity|]). split; [exact Hv|]. destruct d; reflexivity.
Qed.

Lemma notify_preserves (I : World.t -> Prop) (el : Node) :
  (forall p w, I w -> I (dispatchEvent el (events p) w)) ->
  forall viewportHeight d rect w, I w -> I (notify viewportHeight d rect el w).
Proof.
  intros Hd vh d rect w Hw. rewrite notify_unfold. cbv beta zeta.
  destruct (within vh (point d start rect));
    destruct (within vh (point d center rect));
    destruct (within vh (point d end_ rect));
    repeat apply Hd; assumption.
Qed.

Lemma checkColumn_preserves (I : World.t -> Prop) (h : Window.t) (el : Node) :
  (forall p w, I w -> I (dispatchEvent el (events p) w)) ->
  forall w w', checkColumn h el w = Normal w' -> I w -> I w'.
Proof.
  intros Hd w w' H Hw.
  destruct (checkColumn_Normal h el w w' H) as [->|(d & rect & v & _ & _ & _ & _ & ->)];
    [assumption|].
  now apply notify_preserves.
Qed.

Lemma forEach_preserves (I : World.t -> Prop) (f : Node -> World.t -> completion World.t)
  (columns : list Node) :
  (forall el w w', In el columns -> f el w = Normal w' -> I w -> I w') ->
  forall w, I w -> I (fst (forEach f columns w)).
Proof.
  induction columns as [|el columns IH]; cbn; intros Hf w Hw; [assumption|].
  destruct (f el w) as [w'|e] eqn:Hfel; cbn; [|assumption].
  apply IH.
  - intros el' w1 w2 Hin. apply Hf. now right.
  - apply (Hf el w w'); [now left|assumption|assumption].
Qed.

(** A property of the listeners and the console that every dispatch keeps is
    kept by a whole check, and so by every run. *)
Section StoreInvariant.

Variable I : World.t -> Prop.

Hypothesis I_this :
  forall w this, I w -> I (World.mk this (World.listeners w) (World.console w)).

Hypothesis I_dispatch :
  forall el p w, I w -> I (dispatchEvent el (events p) w).

Lemma handleEvent_preserves (h : Window.t) (w : World.t) :
  I w -> I (handleEvent w h).
Proof.
  intros Hw. unfold handleEvent, checkColumnPosition.
  apply forEach_preserves; [|now apply I_this].
  intros el w1 w2 _. apply checkColumn_preserves. intros p. apply I_dispatch.
Qed.

Lemma fold_handleEvent_preserves (hs : list Window.t) (w : World.t) :
  I w -> I (fold_left handleEvent hs w).
Proof.
  revert w. induction hs as [|h hs IH]; cbn; intros w Hw; [assumption|].
  apply IH. now apply handleEvent_preserves.
Qed.

End StoreInvariant.

Lemma checkColumn_this (h : Window.t) (el : Node) (w w' : World.t) :
  checkColumn h el w = Normal w' -> World.this w' = World.this w.
Proof.
  intros H. apply (checkColumn_preserves (fun x => World.this x = World.this w) h el)
    with (w := w); auto.
Qed.

(** ** The store the constructor leaves *)

Lemma listenersOf_addEventListener (el el' : Node) (l : EventListener.t) (w : World.t) :
  listenersOf (addEventListener el l w) el'
  = listenersOf w el' ++ (if Nat.eqb el el' then [l] else []).
Proof.
  unfold listenersOf at 1, addEventListener. cbn [World.listeners].
  destruct (Nat.eqb_spec el el') as [->|Hne].
  - now rewrite lookup_insert_eq.
  - rewrite lookup_insert_ne by assumption. symmetry. apply app_nil_r.
Qed.

Lemma listenersOf_attach (h : Window.t) (el el' : Node) (w : World.t) :
  listenersOf (attach h el w) el'
  = listenersOf w el' ++ (if Nat.eqb el el' then attached h el else []).
Proof.
  unfold attach. cbv zeta. rewrite !listenersOf_addEventListener.
  destruct (Nat.eqb el el'); cbn; rewrite <- ?app_assoc, ?app_nil_r; reflexivity.
Qed.

Lemma fold_attach (h : Window.t) (el : Node) (columns : list Node) (w : World.t) :
  let w' := fold_left (fun w c => attach h c w) columns w in
  World.console w' = World.console w
  /\ listenersOf w' el
     = listenersOf w el
       ++ flat_map (fun c => if Nat.eqb c el then attached h c else []) columns.
Proof.
  revert w. induction columns as [|c columns IH]; intros w; cbn.
  - split; [reflexivity|]. symmetry. apply app_nil_r.
  - destruct (IH (attach h c w)) as [Hc Hl]. split.
    + rewrite Hc. reflexivity.
    + rewrite Hl, listenersOf_attach, <- app_assoc. reflexivity.
Qed.

Lemma constructor_console (h : Window.t) : World.console (constructor h) = [].
Proof.
  unfold constructor, getColumns. cbn.
  apply (fold_attach h 0 (Window.querySelectorAll h ".column")).
Qed.

Lemma constructor_listeners (h : Window.t) (el : Node) :
  listenersOf (constructor h) el
  = flat_map (fun c => if Nat.eqb c el then attached h c else [])
             (Window.querySelectorAll h ".column").
Proof.
  unfold constructor, getColumns. cbn.
  exact (proj2 (fold_attach h el (Window.querySelectorAll h ".column") _)).
Qed.

Lemma attached_once (h : Window.t) (c : Node) (l : EventListener.t) :
  In l (attached h c) -> EventListener.once l = true.
Proof. cbn. intros [<-|[<-|[<-|[]]]]; reflexivity. Qed.

Lemma attached_pending (h : Window.t) (c : Node) (p : position) :
  length (List.filter (listens (Event.type (events p))) (attached h c)) = 1.
Proof. destruct p; reflexivity. Qed.

Lemma constructor_allOnce (h : Window.t) : allOnce (constructor h).
Proof.
  intros el l. rewrite constructor_listeners. rewrite in_flat_map.
  intros (c & _ & Hl). destruct (Nat.eqb c el); [|destruct Hl].
  now apply attached_once in Hl.
Qed.

Lemma constructor_budget (h : Window.t) (el : Node) (p : position) :
  NoDup (Window.querySelectorAll h ".column") -> budget (constructor h) el p <= 1.
Proof.
  intros Hnd. unfold budget, pending, delivered.
  rewrite constructor_console, constructor_listeners. cbn [List.filter length].
  rewrite Nat.add_0_r.
  induction Hnd as [|c columns Hnotin Hnd IH]; cbn; [lia|].
  rewrite List.filter_app, length_app.
  destruct (Nat.eqb_spec c el) as [->|Hne]; [|cbn; exact IH].
  rewrite attached_pending, filter_none; [cbn; lia|].
  intros l Hl. apply in_flat_map in Hl as (c & Hc & Hl).
  destruct (Nat.eqb_spec c el) as [->|_]; [|destruct Hl].
  exfalso. apply Hnotin. now apply list_elem_of_In.
Qed.

(** ** A dispatch moves a once-only listener from the list to the console *)

Lemma dispatch_allOnce (el : Node) (ev : Event.t) (w : World.t) :
  allOnce w -> allOnce (dispatchEvent el ev w).
Proof.
  intros Hw el' l. destruct (Nat.eq_dec el el') as [<-|Hne].
  - rewrite listenersOf_dispatch_same, filter_In. intros [Hl _]. now apply (Hw el).
  - rewrite listenersOf_dispatch_other by assumption. apply Hw.
Qed.

Lemma pending_dispatch_same (el : Node) (p : position) (w : World.t) :
  allOnce w -> pending (dispatchEvent el (events p) w) el p = [].
Proof.
  intros Hw. unfold pending. rewrite listenersOf_dispatch_same.
  apply filter_none. intros l Hl. apply filter_In in Hl as [Hl Hkeep].
  rewrite (Hw el l Hl), andb_true_r in Hkeep.
  now apply negb_true_iff in Hkeep.
Qed.

Lemma pending_dispatch_other (el el' : Node) (p p' : position) (w : World.t) :
  el <> el' \/ p <> p' ->
  pending (dispatchEvent el (events p) w) el' p' = pending w el' p'.
Proof.
  intros Hne. unfold pending. destruct (Nat.eq_dec el el') as [<-|Hel].
  - rewrite listenersOf_dispatch_same.
    induction (listenersOf w el) as [|l ls IH]; [reflexivity|]. cbn.
    destruct (listens (Event.type (events p')) l) eqn:Hl'.
    + assert (Hl : listens (Event.type (events p)) l = false).
      { apply (listens_other _ (Event.type (events p'))); [|assumption].
        destruct (String.eqb (Event.type (events p)) (Event.type (events p'))) eqn:Hp;
          [|reflexivity].
        apply events_type_inj in Hp. destruct Hne; contradiction. }
      rewrite Hl. cbn. rewrite Hl'. now f_equal.
    + destruct (negb _); cbn; rewrite ?Hl'; exact IH.
  - now rewrite listenersOf_dispatch_other.
Qed.

Lemma dispatch_budget (el el' : Node) (p p' : position) (w : World.t) :
  allOnce w -> budget (dispatchEvent el (events p) w) el' p' = budget w el' p'.
Proof.
  intros Hw. unfold budget.
  destruct (Nat.eq_dec el el') as [<-|Hel].
  - destruct (decide (p = p')) as [<-|Hp].
    + rewrite pending_dispatch_same, delivered_dispatch_same by assumption.
      rewrite length_app, length_map. unfold pending. cbn. lia.
    + now rewrite pending_dispatch_other, delivered_dispatch_other by now right.
  - now rewrite pending_dispatch_other, delivered_dispatch_other by now left.
Qed.

(** The invariant of the store: every listener is once-only, and for each
    element and position at most one listener is attached or one line
    printed, never both. *)
Lemma run_invariant (h0 : Window.t) (hs : list Window.t) :
  NoDup (Window.querySelectorAll h0 ".column") ->
  allOnce (run h0 hs) /\ forall el p, budget (run h0 hs) el p <= 1.
Proof.
  intros Hnd. unfold run.
  apply (fold_handleEvent_preserves
           (fun w => allOnce w /\ forall el p, budget w el p <= 1)).
  - intros w this H. exact H.
  - intros el p w [Hall Hb]. split; [now apply dispatch_allOnce|].
    intros el' p'. rewrite dispatch_budget by assumption. apply Hb.
  - split; [apply constructor_allOnce|]. intros el p. now apply constructor_budget.
Qed.

(** C1. Across any sequence of scroll and resize events, the listener of a
    tracked element for a position prints at most one line, however often the
    position's point is within the viewport.  The captured node list names
    each element once, as [querySelectorAll] gives it. *)
Theorem notification_at_most_once (h0 : Window.t) (hs : list Window.t)
  (el : Node) (p : position) :
  NoDup (Window.querySelectorAll h0 ".column") ->
  length (delivered (run h0 hs) el p) <= 1.
Proof.
  intros Hnd. destruct (run_invariant h0 hs Hnd) as [_ Hb].
  specialize (Hb el p). unfold budget in Hb. lia.
Qed.

(** ** The hidden test *)

Lemma chain_cons (el : Element.t) :
  Element.chain el
  = el :: match Element.parentElement el with
          | Some parent => Element.chain parent
          | None => []
          end.
Proof. destruct el as [i r c [parent|]]; reflexivity. Qed.

Lemma isHidden_unfold (frames : nat) (el : Element.t) :
  isHidden frames el
  = match frames with
    | O => Throw RangeError
    | S frames =>
        bind (Element.getComputedStyle el) (fun style =>
          if String.eqb (CSSStyleDeclaration.display style) "none"
          then Normal (boolean true)
          else match Element.parentElement el with
               | Some parent => isHidden frames parent
               | None => Normal undefined
               end)
    end.
Proof. destruct frames, el as [i r c [parent|]]; reflexivity. Qed.

(** The test returns [true] or [undefined], never [false]. *)
Lemma isHidden_values (frames : nat) (el : Element.t) (v : value) :
  isHidden frames el = Normal v -> v = boolean true \/ v = undefined.
Proof.
  revert frames.
  induction el as [i r c|i r c parent IH] using Element_parent_ind;
    intros [|frames]; rewrite isHidden_unfold; try discriminate; cbn;
    destruct c as [style|e]; cbn; try discriminate;
    destruct (String.eqb _ _); try (intros [= <-]; auto).
  apply IH.
Qed.

(** A [true] answer names a hidden element on the chain. *)
Lemma isHidden_true_sound (frames : nat) (el : Element.t) :
  isHidden frames el = Normal (boolean true) -> hiddenInChain el.
Proof.
  unfold hiddenInChain. revert frames.
  induction el as [i r c|i r c parent IH] using Element_parent_ind;
    intros [|frames]; rewrite isHidden_unfold, chain_cons; try discriminate; cbn;
    (destruct c as [style|e]; cbn; [|discriminate]);
    destruct (String.eqb _ _) eqn:Hd; try discriminate.
  - intros _. apply Exists_cons_hd. exists style. split; [reflexivity|].
    now apply String.eqb_eq.
  - intros _. apply Exists_cons_hd. exists style. split; [reflexivity|].
    now apply String.eqb_eq.
  - intros H. apply Exists_cons_tl. now apply (IH frames).
Qed.

(** With a hidden element on the chain the test never answers "not hidden":
    it returns [true], or it throws before it reaches the hidden element. *)
Lemma isHidden_hidden (frames : nat) (el : Element.t) (v : value) :
  hiddenInChain el -> isHidden frames el = Normal v -> v = boolean true.
Proof.
  unfold hiddenInChain. revert frames.
  induction el as [i r c|i r c parent IH] using Element_parent_ind;
    intros [|frames]; rewrite isHidden_unfold, chain_cons; cbn;
    try (intros _; discriminate);
    (destruct c as [style|e]; cbn; [|intros _; discriminate]);
    destruct (String.eqb _ _) eqn:Hd; try (intros _ [= <-]; reflexivity);
    intros Hex; apply Exists_cons in Hex as [(style' & [= <-] & Hnone)|Hex];
    try (cbn in Hnone; rewrite Hnone in Hd; discriminate Hd).
  - inversion Hex.
  - now apply IH.
Qed.

(** When the style queries are answered and the stack has a frame for each
    element of the chain, the test returns a value. *)
Lemma isHidden_returns (frames : nat) (el : Element.t) :
  stylesAnswer el -> length (Element.chain el) <= frames ->
  exists v, isHidden frames el = Normal v.
Proof.
  unfold stylesAnswer. revert frames.
  induction el as [i r c|i r c parent IH] using Element_parent_ind;
    intros [|frames]; rewrite isHidden_unfold, chain_cons; cbn;
    intros Hall Hlen; try lia;
    apply Forall_cons in Hall as [(style & Hs) Hall];
    cbn in Hs; subst c; cbn;
    destruct (String.eqb _ _); eauto.
  apply IH; [exact Hall|lia].
Qed.

(** The walk up through [n] displayed elements takes [n] frames. *)
Lemma isHidden_descendant (frames n : nat) (root : Element.t) :
  isHidden frames (descendant n root)
  = if n <=? frames then isHidden (frames - n) root else Throw RangeError.
Proof.
  revert frames. induction n as [|n IH]; intros frames.
  - cbn. now rewrite Nat.sub_0_r.
  - destruct frames as [|frames]; [reflexivity|]. cbn. exact (IH frames).
Qed.

Lemma chain_descendant (n : nat) (root : Element.t) :
  length (Element.chain (descendant n root)) = n + length (Element.chain root).
Proof. induction n as [|n IH]; [reflexivity|]. cbn. now rewrite IH. Qed.

Lemma stylesAnswer_descendant (n : nat) (root : Element.t) :
  stylesAnswer root -> stylesAnswer (descendant n root).
Proof.
  unfold stylesAnswer. intros Hroot. induction n as [|n IH]; [exact Hroot|].
  cbn [descendant]. rewrite chain_cons. cbn.
  apply List.Forall_cons; [eexists; reflexivity|exact IH].
Qed.

Lemma hiddenInChain_descendant (n : nat) (root : Element.t) :
  hiddenInChain (descendant n root) -> hiddenInChain root.
Proof.
  unfold hiddenInChain. induction n as [|n IH]; [auto|].
  cbn [descendant]. rewrite chain_cons. cbn. intros H.
  apply Exists_cons in H as [(style & [= <-] & Hnone)|H]; [discriminate Hnone|].
  now apply IH.
Qed.

(** C8, as the source has it.  For an element whose style queries are
    answered: when the call stack has a frame for each element of the chain
    the hidden test returns, and its answer is truthy exactly when the
    element or one of its ancestors has computed display "none"; an element
    without parent that is not itself display "none" makes the walk end with
    [undefined], which the caller reads as not hidden.  The walk is a
    recursion that holds one frame per element: through [n] displayed
    elements it gives the answer of the element it reaches only while [n]
    frames are there, and throws [RangeError] when the chain of displayed
    elements is deeper than the stack. *)
Theorem isHidden_walks_the_chain (frames : nat) (el : Element.t) :
  stylesAnswer el ->
  (length (Element.chain el) <= frames ->
   exists v, isHidden frames el = Normal v
             /\ (ToBoolean v = true <-> hiddenInChain el))
  /\ (Element.parentElement el = None -> ~ Element.displayNone el -> 0 < frames ->
      isHidden frames el = Normal undefined /\ negb (ToBoolean undefined) = true)
  /\ (forall n, n <= frames ->
                isHidden frames (descendant n el) = isHidden (frames - n) el)
  /\ (forall n, frames < n -> isHidden frames (descendant n el) = Throw RangeError).
Proof.
  intros Hs.
  assert (Hiff : forall v, isHidden frames el = Normal v ->
                           (ToBoolean v = true <-> hiddenInChain el)).
  { intros v Hv. split.
    - intros Ht. apply (isHidden_true_sound frames).
      destruct (isHidden_values frames el v Hv) as [->| ->]; [exact Hv|discriminate Ht].
    - intros Hh. now rewrite (isHidden_hidden frames el v Hh Hv). }
  split; [|split; [|split]].
  - intros Hlen. destruct (isHidden_returns frames el Hs Hlen) as [v Hv].
    exists v. split; [exact Hv|now apply Hiff].
  - intros Hp Hn Hframes. split; [|reflexivity].
    assert (Hlen : length (Element.chain el) <= frames)
      by (rewrite chain_cons, Hp; cbn; lia).
    destruct (isHidden_returns frames el Hs Hlen) as [v Hv].
    destruct (isHidden_values frames el v Hv) as [->| ->]; [|exact Hv].
    exfalso. apply Hn. assert (Hh : hiddenInChain el) by now apply (Hiff (boolean true)).
    unfold hiddenInChain in Hh. rewrite chain_cons, Hp in Hh.
    apply Exists_cons in Hh as [Hh|Hh]; [exact Hh|inversion Hh].
  - intros n Hn. rewrite isHidden_descendant.
    now rewrite (proj2 (Nat.leb_le n frames) Hn).
  - intros n Hn. rewrite isHidden_descendant.
    now rewrite (proj2 (Nat.leb_gt n frames) Hn).
Qed.

(** ** Frame: a notification touches one element and one position *)

Lemma delivered_notify (viewportHeight : Number.t) (d : direction) (rect : DOMRect.t)
  (el el' : Node) (p : position) (w : World.t) :
  el <> el' \/ within viewportHeight (point d p rect) = false ->
  delivered (notify viewportHeight d rect el w) el' p = delivered w el' p.
Proof.
  intros H. rewrite notify_unfold. cbv beta zeta.
  assert (Hq : forall q, within viewportHeight (point d q rect) = true ->
                         el <> el' \/ q <> p).
  { intros q Hq. destruct H as [H|H]; [now left|right].
    intros ->. rewrite H in Hq. discriminate Hq. }
  destruct (within viewportHeight (point d end_ rect)) eqn:He;
    [rewrite delivered_dispatch_other by now apply Hq|];
    (destruct (within viewportHeight (point d center rect)) eqn:Hc;
     [rewrite delivered_dispatch_other by now apply Hq|]);
    (destruct (within viewportHeight (point d start rect)) eqn:Hst;
     [rewrite delivered_dispatch_other by now apply Hq|]);
    reflexivity.
Qed.

Lemma listenersOf_notify (viewportHeight : Number.t) (d : direction) (rect : DOMRect.t)
  (el el' : Node) (w : World.t) :
  el <> el' ->
  listenersOf (notify viewportHeight d rect el w) el' = listenersOf w el'.
Proof.
  intros Hne.
  apply (notify_preserves (fun x => listenersOf x el' = listenersOf w el') el);
    [|reflexivity].
  intros p x Hx. now rewrite listenersOf_dispatch_other.
Qed.

(** A callback for an element with a hidden element on its chain that
    returns has changed nothing. *)
Lemma checkColumn_hidden (h : Window.t) (el : Node) (w w' : World.t) :
  hiddenInChain (Window.element h el) -> checkColumn h el w = Normal w' -> w' = w.
Proof.
  intros Hh H.
  destruct (checkColumn_Normal h el w w' H) as [->|(d & rect & v & _ & _ & Hv & Hb & _)];
    [reflexivity|].
  rewrite (isHidden_hidden _ _ v Hh Hv) in Hb. discriminate Hb.
Qed.

(** C7. If a tracked element or one of its ancestors has computed display
    "none" at a check, that check prints no line for the element, whatever
    its geometry, and leaves its listeners as they were. *)
Theorem hidden_suppresses_all (h : Window.t) (w : World.t) (el : Node) :
  hiddenInChain (Window.element h el) ->
  let w' := fst (checkColumnPosition h w) in
  (forall p, delivered w' el p = delivered w el p)
  /\ listenersOf w' el = listenersOf w el.
Proof.
  intros Hh. cbv zeta. unfold checkColumnPosition.
  apply (forEach_preserves
           (fun x => (forall p, delivered x el p = delivered w el p)
                     /\ listenersOf x el = listenersOf w el)).
  - intros el' w1 w2 _ H [Hd Hl].
    destruct (Nat.eq_dec el' el) as [->|Hne].
    + now rewrite (checkColumn_hidden h el w1 w2 Hh H).
    + destruct (checkColumn_Normal h el' w1 w2 H)
        as [->|(d & rect & v & _ & _ & _ & _ & ->)]; [now split|].
      split.
      * intros p. rewrite delivered_notify by now left. apply Hd.
      * rewrite listenersOf_notify by assumption. exact Hl.
  - split; reflexivity.
Qed.

(** ** Containment and the points it is applied to *)

(** The callback on a rendered element is step 2e of the specification. *)
Lemma checkColumn_rendered (h : Window.t) (el : Node) (w : World.t) (d : direction)
  (rect : DOMRect.t) (v : value) :
  ColumnScrollLogger.scrollDirection (World.this w) = Some d ->
  Element.getBoundingClientRect (Window.element h el) = Normal rect ->
  isHidden (Window.stackFrames h) (Window.element h el) = Normal v ->
  ToBoolean v = false ->
  checkColumn h el w = Normal (notify (Window.innerHeight h) d rect el w).
Proof.
  intros Hd Hrect Hv Hb. unfold checkColumn. rewrite Hrect, Hv. cbn.
  rewrite Hb, Hd. cbn. destruct d; reflexivity.
Qed.

(** A position whose point is not within the viewport prints nothing for the
    element during the whole check. *)
Lemma check_outside (h : Window.t) (w : World.t) (el : Node) (d : direction)
  (rect : DOMRect.t) (p : position) :
  ColumnScrollLogger.scrollDirection (getScrollDirection h (World.this w)) = Some d ->
  Element.getBoundingClientRect (Window.element h el) = Normal rect ->
  within (Window.innerHeight h) (point d p rect) = false ->
  delivered (fst (checkColumnPosition h w)) el p = delivered w el p.
Proof.
  intros Hd Hrect Hout. unfold checkColumnPosition.
  set (w1 := World.mk (getScrollDirection h (World.this w)) _ _).
  apply (forEach_preserves
           (fun x => delivered x el p = delivered w el p
                     /\ World.this x = World.this w1)); [|split; reflexivity].
  intros el' x x' _ H [Hx Hthis]. split; [|now rewrite (checkColumn_this h el' x x' H)].
  destruct (checkColumn_Normal h el' x x' H)
    as [->|(d' & rect' & v & Hd' & Hrect' & _ & _ & ->)]; [exact Hx|].
  rewrite delivered_notify; [exact Hx|].
  destruct (Nat.eq_dec el' el) as [->|Hne]; [right|now left].
  rewrite Hthis in Hd'. cbn [World.this w1] in Hd'.
  rewrite Hd in Hd'. rewrite Hrect in Hrect'.
  injection Hd' as <-. injection Hrect' as <-. exact Hout.
Qed.

(** An element out of the document answers the geometry query with the zero
    rectangle: none of its points is within a viewport, so a check prints
    nothing for it and goes on to the other elements. *)
Lemma zero_rectangle_prints_nothing (h : Window.t) (w : World.t) (el : Node)
  (p : position) :
  Element.getBoundingClientRect (Window.element h el)
  = Normal (DOMRect.mk Number.zero Number.zero Number.zero) ->
  delivered (fst (checkColumnPosition h w)) el p = delivered w el p.
Proof.
  intros Hrect.
  destruct (ColumnScrollLogger.scrollDirection (getScrollDirection h (World.this w)))
    as [d|] eqn:Hd; [|discriminate Hd].
  apply (check_outside h w el d _ p Hd Hrect).
  destruct d, p; reflexivity.
Qed.

(** C3. Whatever the direction, the geometry and the viewport height, the
    test the source applies for a position is [0 < x && x < viewportHeight]
    at the point [x] of that position; a point equal to 0 or to the viewport
    height fails it, and the check then prints no line for that position of
    the element (with direction down and position start: no start line for
    an element whose top is 0). *)
Theorem containment_is_open (viewportHeight : Number.t) (rect : DOMRect.t)
  (d : direction) (p : position) :
  let x := point d p rect in
  let row := predictates viewportHeight (DOMRect.top rect) (colCenter rect)
                         (DOMRect.bottom rect) d in
  isVisibleAt p row = (Number.lt Number.zero x && Number.lt x viewportHeight)
  /\ (Number.eq x Number.zero = true \/ Number.eq x viewportHeight = true ->
      isVisibleAt p row = false
      /\ forall h w el,
           Window.innerHeight h = viewportHeight ->
           ColumnScrollLogger.scrollDirection
             (getScrollDirection h (World.this w)) = Some d ->
           Element.getBoundingClientRect (Window.element h el) = Normal rect ->
           delivered (fst (checkColumnPosition h w)) el p = delivered w el p).
Proof.
  cbv zeta. split; [apply predictates_within|].
  intros Hedge. apply within_open in Hedge.
  split; [now rewrite predictates_within|].
  intros h w el <- Hd Hrect. now apply (check_outside h w el d rect p).
Qed.

(** C4. For a rendered element the callback notifies each position whose
    point is within the viewport, and the point of a position depends on the
    direction alone: down tests start at the top, center at the midpoint
    [top + height / 2] and end at the bottom; up tests start at the bottom
    and end at the top, so the two directions swap the points of start and
    end and agree on center. *)
Theorem direction_assigns_points (h : Window.t) (el : Node) (w : World.t)
  (d : direction) (rect : DOMRect.t) (v : value) :
  ColumnScrollLogger.scrollDirection (World.this w) = Some d ->
  Element.getBoundingClientRect (Window.element h el) = Normal rect ->
  isHidden (Window.stackFrames h) (Window.element h el) = Normal v ->
  ToBoolean v = false ->
  checkColumn h el w = Normal (notify (Window.innerHeight h) d rect el w)
  /\ (forall viewportHeight d' p,
        isVisibleAt p (predictates viewportHeight (DOMRect.top rect) (colCenter rect)
                                   (DOMRect.bottom rect) d')
        = within viewportHeight (point d' p rect))
  /\ (point down start rect = DOMRect.top rect
      /\ point down center rect
         = Number.add (DOMRect.top rect) (Number.div (DOMRect.height rect) Number.two)
      /\ point down end_ rect = DOMRect.bottom rect)
  /\ (point up start rect = DOMRect.bottom rect
      /\ point up center rect = point down center rect
      /\ point up end_ rect = DOMRect.top rect)
  /\ (point up start rect = point down end_ rect
      /\ point up end_ rect = point down start rect).
Proof.
  intros Hd Hrect Hv Hb.
  split; [now apply (checkColumn_rendered h el w d rect v)|].
  split; [intros vh d' p; apply predictates_within|].
  repeat split.
Qed.

(** ** Direction resolution *)

Lemma not_gt_zero_le (x : Number.t) :
  Number.isNaN x = false ->
  (Number.gt x Number.zero = false <-> Number.le x Number.zero = true).
Proof.
  number_cases x; intros H; try discriminate H;
    split; intros H'; try discriminate H'; reflexivity.
Qed.

Lemma SFcompare_Eq_sym (x y : spec_float) :
  SFcompare x y = Some Eq -> SFcompare y x = Some Eq.
Proof.
  destruct x as [sx|sx| |sx mx ex], y as [sy|sy| |sy my ey];
    try destruct sx; try destruct sy; cbn; intros H; try discriminate H;
    try reflexivity.
  - destruct (Z.compare_spec ex ey) as [->| |]; try discriminate H.
    rewrite Z.compare_refl. injection H as H. apply CompOpp_iff in H. cbn in H.
    apply Pos.compare_eq in H. subst my. now rewrite Pos.compare_cont_refl.
  - destruct (Z.compare_spec ex ey) as [->| |]; try discriminate H.
    rewrite Z.compare_refl. injection H as H.
    apply Pos.compare_eq in H. subst my. now rewrite Pos.compare_cont_refl.
Qed.

Lemma eq_not_gt (x y : Number.t) : Number.eq x y = true -> Number.gt x y = false.
Proof.
  unfold Number.eq, Number.gt, SFeqb, SFltb. intros H.
  destruct (SFcompare x y) as [[]|] eqn:Hc; try discriminate H.
  now rewrite (SFcompare_Eq_sym x y Hc).
Qed.

(** The stored offset, as the source computes it, is [Math.max(0, st)]. *)
Lemma clamp_max (x : Number.t) :
  (if Number.le x Number.zero then Number.zero else x) = Number.max Number.zero x.
Proof. number_cases x; reflexivity. Qed.

Lemma max_zero_nonneg (x : Number.t) :
  Number.isNaN x = false -> Number.le Number.zero (Number.max Number.zero x) = true.
Proof.
  number_cases x; intros H; try discriminate H; reflexivity.
Qed.

Lemma direction_cases (b : bool) :
  (Some (if b then down else up) = Some down <-> b = true)
  /\ (Some (if b then down else up) = Some up <-> b = false).
Proof. destruct b; repeat split; intros H; try discriminate H; reflexivity. Qed.

(** C5, as the source has it.  On the first call (no stored offset) the
    direction is down exactly when [st > 0] and up exactly when [st > 0]
    fails, which for a number means [st <= 0]: zero or negative.  On a later
    call the direction is down exactly when [st] is greater than the stored
    offset and up otherwise, in particular when the two are equal. *)
Theorem direction_resolution (h : Window.t) (this : ColumnScrollLogger.t) :
  let dir := ColumnScrollLogger.scrollDirection (getScrollDirection h this) in
  (ColumnScrollLogger.lastScrollStart this = None ->
   (dir = Some down <-> Number.gt (st h) Number.zero = true)
   /\ (dir = Some up <-> Number.gt (st h) Number.zero = false)
   /\ (Number.isNaN (st h) = false ->
       (dir = Some up <-> Number.le (st h) Number.zero = true)))
  /\ (forall prev, ColumnScrollLogger.lastScrollStart this = Some prev ->
      (dir = Some down <-> Number.gt (st h) prev = true)
      /\ (dir = Some up <-> Number.gt (st h) prev = false)
      /\ (Number.eq (st h) prev = true -> dir = Some up)).
Proof.
  cbv zeta. unfold getScrollDirection. cbn [ColumnScrollLogger.scrollDirection]. split.
  - intros ->. cbn [Number.of_nullable default].
    destruct (direction_cases (Number.gt (st h) Number.zero)) as [Hdown Hup].
    split; [exact Hdown|]. split; [exact Hup|].
    intros Hnan. rewrite Hup. now apply not_gt_zero_le.
  - intros prev ->. cbn [Number.of_nullable default].
    destruct (direction_cases (Number.gt (st h) prev)) as [Hdown Hup].
    split; [exact Hdown|]. split; [exact Hup|].
    intros Heq. apply Hup. now apply eq_not_gt.
Qed.

Lemma checkColumnPosition_this (h : Window.t) (w : World.t) :
  World.this (fst (checkColumnPosition h w)) = getScrollDirection h (World.this w).
Proof.
  unfold checkColumnPosition.
  apply (forEach_preserves
           (fun x => World.this x = getScrollDirection h (World.this w)));
    [|reflexivity].
  intros el x x' _ H Hx. now rewrite (checkColumn_this h el x x' H).
Qed.

(** C6. After direction resolution, and so after a check, the stored offset
    is [max(0, st)] for the offset [st] read in that step; for a numeric
    [st], negative or not, it is at least 0. *)
Theorem offset_is_clamped (h : Window.t) (w : World.t) :
  ColumnScrollLogger.lastScrollStart (getScrollDirection h (World.this w))
  = Some (Number.max Number.zero (st h))
  /\ ColumnScrollLogger.lastScrollStart (World.this (fst (checkColumnPosition h w)))
     = Some (Number.max Number.zero (st h))
  /\ (Number.isNaN (st h) = false ->
      Number.le Number.zero (Number.max Number.zero (st h)) = true).
Proof.
  assert (H : ColumnScrollLogger.lastScrollStart (getScrollDirection h (World.this w))
              = Some (Number.max Number.zero (st h))).
  { unfold getScrollDirection. cbn. now rewrite clamp_max. }
  split; [exact H|]. split; [now rewrite checkColumnPosition_this|].
  apply max_zero_nonneg.
Qed.

(** ** The lines on the console *)

Lemma constructor_attachedTo (h0 : Window.t) (el : Node) (l : EventListener.t) :
  In l (listenersOf (constructor h0) el) -> attachedTo h0 el l.
Proof.
  rewrite constructor_listeners, in_flat_map. intros (c & _ & Hl).
  destruct (Nat.eqb_spec c el) as [Hc|_]; [subst c|destruct Hl].
  cbn in Hl. destruct Hl as [<-|[<-|[<-|[]]]];
    [exists start|exists center|exists end_]; reflexivity.
Qed.

Lemma dispatch_templated (h0 : Window.t) (el : Node) (p : position) (w : World.t) :
  (forall el l, In l (listenersOf w el) -> attachedTo h0 el l) ->
  Forall (templated h0) (World.console w) ->
  (forall el' l, In l (listenersOf (dispatchEvent el (events p) w) el') ->
                 attachedTo h0 el' l)
  /\ Forall (templated h0) (World.console (dispatchEvent el (events p) w)).
Proof.
  intros Hl Hc. split.
  - intros el' l. destruct (Nat.eq_dec el el') as [<-|Hne].
    + rewrite listenersOf_dispatch_same, filter_In. intros [Hin _]. now apply Hl.
    + rewrite listenersOf_dispatch_other by assumption. apply Hl.
  - unfold dispatchEvent. cbn [World.console]. apply Forall_app. split; [exact Hc|].
    apply List.Forall_forall. intros d Hd. apply in_map_iff in Hd as (l & <- & Hin).
    apply filter_In in Hin as [Hin Hty]. destruct (Hl el l Hin) as (q & ->).
    exists q. cbn. split; [|reflexivity].
    unfold listens in Hty. cbn in Hty. apply String.eqb_eq in Hty. now rewrite <- Hty.
Qed.

Lemma run_templated (h0 : Window.t) (hs : list Window.t) :
  Forall (templated h0) (World.console (run h0 hs)).
Proof.
  unfold run.
  apply (fold_handleEvent_preserves
           (fun w => (forall el l, In l (listenersOf w el) -> attachedTo h0 el l)
                     /\ Forall (templated h0) (World.console w))).
  - intros w this H. exact H.
  - intros el p w [Hl Hc]. now apply dispatch_templated.
  - split; [apply constructor_attachedTo|]. rewrite constructor_console. constructor.
Qed.

(** C9. Every line on the console is the message of the position whose
    event printed it, for the identifier its element had when the logger was
    built; the three messages are the literal templates around the
    identifier; and an element without [id] attribute gets the empty string
    in its place. *)
Theorem log_line_is_the_template (h0 : Window.t) (hs : list Window.t) (d : Delivery.t) :
  In d (World.console (run h0 hs)) ->
  let el := Window.element h0 (Delivery.target d) in
  (exists p, Delivery.type d = Event.type (events p)
             /\ Delivery.line d = logStatus p (Element.id el))
  /\ (forall id,
        logStatus start id
        = "Column with id:" +:+ id +:+ " started to become visible on the page."
        /\ logStatus center id
           = "Column with id:" +:+ id +:+ " is now more than 50% visible on the page."
        /\ logStatus end_ id
           = "Column with id:" +:+ id +:+ " is now fully visible on the page.")
  /\ (Element.id_attribute el = None ->
      Element.id el = ""
      /\ exists p, Delivery.line d = logStatus p ""
                   /\ logStatus start "" = "Column with id: started to become visible on the page."
                   /\ logStatus center ""
                      = "Column with id: is now more than 50% visible on the page."
                   /\ logStatus end_ "" = "Column with id: is now fully visible on the page.").
Proof.
  intros Hin. cbv zeta.
  pose proof (run_templated h0 hs) as Hall.
  rewrite List.Forall_forall in Hall. destruct (Hall d Hin) as (p & Hty & Hline).
  split; [now exists p|]. split; [intros id; repeat split|].
  intros Hnone.
  assert (Hid : Element.id (Window.element h0 (Delivery.target d)) = "")
    by (unfold Element.id; now rewrite Hnone).
  split; [exact Hid|]. exists p. rewrite Hline, Hid. repeat split.
Qed.

(** ** A query that throws *)

Lemma forEach_app (f : Node -> World.t -> completion World.t)
  (before after : list Node) (w : World.t) :
  snd (forEach f before w) = Normal tt ->
  forEach f (before ++ after) w = forEach f after (fst (forEach f before w)).
Proof.
  revert w. induction before as [|el before IH]; intros w; cbn; [reflexivity|].
  destruct (f el w) as [w'|e]; cbn; [apply IH|discriminate].
Qed.


Lemma checkColumn_throws (h : Window.t) (el : Node) (w : World.t) (e : Exception) :
  Element.getBoundingClientRect (Window.element h el) = Throw e
  \/ (exists rect, Element.getBoundingClientRect (Window.element h el) = Normal rect)
     /\ isHidden (Window.stackFrames h) (Window.element h el) = Throw e ->
  checkColumn h el w = Throw e.
Proof.
  unfold checkColumn. intros [->|[(rect & ->) ->]]; reflexivity.
Qed.

Lemma checkColumn_returns (h : Window.t) (el : Node) (w : World.t) (d : direction) :
  answers (Window.element h el) ->
  length (Element.chain (Window.element h el)) <= Window.stackFrames h ->
  ColumnScrollLogger.scrollDirection (World.this w) = Some d ->
  exists w', checkColumn h el w = Normal w'.
Proof.
  intros [(rect & Hrect) Hs] Hlen Hd.
  destruct (isHidden_returns _ _ Hs Hlen) as [v Hv].
  unfold checkColumn. rewrite Hrect, Hv. cbn. rewrite Hd.
  destruct (negb (ToBoolean v)); eauto.
Qed.

(** When the host answers every query about the listed elements and the
    stack has a frame for each element of their chains, the loop returns. *)
Lemma forEach_returns (h : Window.t) (columns : list Node) (w : World.t) (d : direction) :
  (forall el, In el columns ->
              answers (Window.element h el)
              /\ length (Element.chain (Window.element h el)) <= Window.stackFrames h) ->
  ColumnScrollLogger.scrollDirection (World.this w) = Some d ->
  snd (forEach (checkColumn h) columns w) = Normal tt.
Proof.
  revert w. induction columns as [|el columns IH]; intros w Hall Hd; cbn; [reflexivity|].
  destruct (Hall el (or_introl eq_refl)) as [Hans Hlen].
  destruct (checkColumn_returns h el w d Hans Hlen Hd) as [w' Hw'].
  rewrite Hw'. apply IH.
  - intros el' Hin. apply Hall. now right.
  - now rewrite (checkColumn_this h el w w' Hw').
Qed.

(** C2, as the source has it.  A query that throws for a tracked element
    prints nothing for it, and the exception leaves [checkColumnPosition]:
    the store is the one the elements before it left, and the elements after
    it are not looked at in that check. *)
Theorem failed_query_ends_the_check (h : Window.t) (w : World.t)
  (before : list Node) (el : Node) (after : list Node) (e : Exception) :
  let w1 := World.mk (getScrollDirection h (World.this w))
                     (World.listeners w) (World.console w) in
  ColumnScrollLogger.columns (World.this w) = before ++ el :: after ->
  snd (forEach (checkColumn h) before w1) = Normal tt ->
  (Element.getBoundingClientRect (Window.element h el) = Throw e
   \/ (exists rect, Element.getBoundingClientRect (Window.element h el) = Normal rect)
      /\ isHidden (Window.stackFrames h) (Window.element h el) = Throw e) ->
  checkColumnPosition h w = (fst (forEach (checkColumn h) before w1), Throw e).
Proof.
  cbv zeta. intros Hcols Hbefore Hfail.
  unfold checkColumnPosition. cbn [World.this ColumnScrollLogger.columns getScrollDirection].
  rewrite Hcols, forEach_app by exact Hbefore. cbn [forEach].
  now rewrite (checkColumn_throws h el _ e Hfail).
Qed.

(** C2 does not hold as stated.  For the first of two columns the
    geometry query throws, the check ends with that exception, and the second
    column, rendered with all three points in the viewport, prints nothing
    although its own callback would have printed three lines. *)
Lemma failed_query_skips_later_columns :
  let h0 := page 800 0 [column "A" 900 200; column "B" 1200 200] in
  let h := page 800 10 [faulty "A"; column "B" 100 200] in
  let w := constructor h0 in
  let w1 := World.mk (getScrollDirection h (World.this w))
                     (World.listeners w) (World.console w) in
  Element.getBoundingClientRect (Window.element h 0)
  = Throw (HostError "getBoundingClientRect")
  /\ snd (checkColumnPosition h w) = Throw (HostError "getBoundingClientRect")
  /\ World.console (fst (checkColumnPosition h w)) = []
  /\ lines (fst (forEach (checkColumn h) [1] w1))
     = ["Column with id:B started to become visible on the page.";
        "Column with id:B is now more than 50% visible on the page.";
        "Column with id:B is now fully visible on the page."].
Proof. cbv zeta. repeat split; vm_compute; reflexivity. Qed.

Lemma failed_query_ends_the_check_witness :
  let h0 := page 800 0 [column "A" 900 200; column "B" 1200 200] in
  let h := page 800 10 [faulty "A"; column "B" 100 200] in
  let w := constructor h0 in
  let w1 := World.mk (getScrollDirection h (World.this w))
                     (World.listeners w) (World.console w) in
  ColumnScrollLogger.columns (World.this w) = [] ++ 0 :: [1]
  /\ checkColumnPosition h w = (w1, Throw (HostError "getBoundingClientRect")).
Proof.
  cbv zeta. split; [reflexivity|].
  apply (failed_query_ends_the_check
           (page 800 10 [faulty "A"; column "B" 100 200])
           (constructor (page 800 0 [column "A" 900 200; column "B" 1200 200]))
           [] 0 [1] (HostError "getBoundingClientRect")).
  - reflexivity.
  - reflexivity.
  - left. reflexivity.
Defined.

(** C5 does not hold as stated.  On a first call with a negative offset the
    direction is up although the offset is not 0. *)
Lemma first_call_negative_offset :
  let h := page 800 (-1) [] in
  let this := World.this (constructor h) in
  ColumnScrollLogger.lastScrollStart this = None
  /\ ColumnScrollLogger.scrollDirection (getScrollDirection h this) = Some up
  /\ Number.eq (st h) Number.zero = false
  /\ Number.lt (st h) Number.zero = true.
Proof. cbv zeta. repeat split. Qed.

Lemma direction_resolution_witness :
  let h := page 800 (-1) [] in
  let this := World.this (constructor h) in
  let h' := page 800 10 [] in
  let this' := getScrollDirection h' this in
  (ColumnScrollLogger.lastScrollStart this = None
   /\ Number.isNaN (st h) = false
   /\ Number.le (st h) Number.zero = true
   /\ ColumnScrollLogger.scrollDirection (getScrollDirection h this) = Some up)
  /\ (ColumnScrollLogger.lastScrollStart this' = Some (Number.of_Z 10)
      /\ Number.eq (st h') (Number.of_Z 10) = true
      /\ ColumnScrollLogger.scrollDirection (getScrollDirection h' this') = Some up).
Proof.
  cbv zeta. split.
  - split; [reflexivity|]. split; [reflexivity|]. split; [reflexivity|].
    apply (proj2 (proj2 (proj1 (direction_resolution
                                  (page 800 (-1) [])
                                  (World.this (constructor (page 800 (-1) []))))
                               eq_refl)) eq_refl).
    reflexivity.
  - split; [reflexivity|]. split; [reflexivity|].
    apply (proj2 (proj2 (proj2 (direction_resolution
                                  (page 800 10 [])
                                  (getScrollDirection
                                     (page 800 10 [])
                                     (World.this (constructor (page 800 (-1) [])))))
                               (Number.of_Z 10) eq_refl))).
    reflexivity.
Defined.

Lemma offset_is_clamped_witness :
  let h := page 800 (-5) [] in
  Number.isNaN (st h) = false
  /\ Number.lt (st h) Number.zero = true
  /\ Number.le Number.zero (Number.max Number.zero (st h)) = true.
Proof.
  cbv zeta. split; [reflexivity|]. split; [reflexivity|].
  apply (proj2 (proj2 (offset_is_clamped (page 800 (-5) [])
                                         (constructor (page 800 (-5) []))))).
  reflexivity.
Defined.

Lemma notification_at_most_once_witness :
  let h0 := page 800 0 [column "A" 900 200] in
  let hs := [page 800 10 [column "A" 100 200]; page 800 20 [column "A" 90 200]] in
  NoDup (Window.querySelectorAll h0 ".column")
  /\ length (delivered (run h0 hs) 0 start) <= 1.
Proof.
  cbv zeta.
  assert (Hnd : NoDup (Window.querySelectorAll
                         (page 800 0 [column "A" 900 200]) ".column"))
    by apply NoDup_singleton.
  split; [exact Hnd|].
  apply (notification_at_most_once
           (page 800 0 [column "A" 900 200])
           [page 800 10 [column "A" 100 200]; page 800 20 [column "A" 90 200]]
           0 start Hnd).
Defined.

Lemma containment_is_open_witness :
  let h0 := page 800 0 [column "A" 900 200] in
  let h := page 800 10 [column "A" 0 200] in
  Number.eq (point down start (rectangle 0 200)) Number.zero = true
  /\ isVisibleAt start
       (predictates (Number.of_Z 800) (DOMRect.top (rectangle 0 200))
                    (colCenter (rectangle 0 200)) (DOMRect.bottom (rectangle 0 200)) down)
     = false
  /\ delivered (fst (checkColumnPosition h (constructor h0))) 0 start
     = delivered (constructor h0) 0 start.
Proof.
  cbv zeta. split; [reflexivity|].
  destruct (proj2 (containment_is_open (Number.of_Z 800) (rectangle 0 200) down start)
                  (or_introl eq_refl)) as [Hrow Hcheck].
  split; [exact Hrow|].
  apply Hcheck; reflexivity.
Defined.

Lemma direction_assigns_points_witness :
  let h0 := page 800 0 [column "A" 900 200] in
  let h := page 800 20 [column "A" 100 200] in
  let w := run h0 [page 800 10 [column "A" 900 200]] in
  ColumnScrollLogger.scrollDirection (World.this w) = Some down
  /\ checkColumn h 0 w
     = Normal (notify (Window.innerHeight h) down (rectangle 100 200) 0 w).
Proof.
  cbv zeta. split; [reflexivity|].
  apply (direction_assigns_points
           (page 800 20 [column "A" 100 200]) 0
           (run (page 800 0 [column "A" 900 200]) [page 800 10 [column "A" 900 200]])
           down (rectangle 100 200) undefined); reflexivity.
Defined.

Lemma hidden_suppresses_all_witness :
  let h0 := page 800 0 [column "A" 900 200] in
  let h := page 800 10 [columnInCollapsed "A" 100 200] in
  let w := constructor h0 in
  hiddenInChain (Window.element h 0)
  /\ within (Window.innerHeight h) (Number.of_Z 100) = true
  /\ (forall p, delivered (fst (checkColumnPosition h w)) 0 p = delivered w 0 p)
  /\ listenersOf (fst (checkColumnPosition h w)) 0 = listenersOf w 0.
Proof.
  cbv zeta.
  assert (Hh : hiddenInChain
                 (Window.element (page 800 10 [columnInCollapsed "A" 100 200]) 0)).
  { apply Exists_cons_tl, Exists_cons_hd. exists display_none. split; reflexivity. }
  split; [exact Hh|]. split; [reflexivity|].
  exact (hidden_suppresses_all (page 800 10 [columnInCollapsed "A" 100 200])
                               (constructor (page 800 0 [column "A" 900 200])) 0 Hh).
Defined.

Lemma isHidden_walks_the_chain_witness :
  let el := columnInCollapsed "A" 100 200 in
  stylesAnswer el
  /\ length (Element.chain el) <= sampleFrames
  /\ (exists v, isHidden sampleFrames el = Normal v
                /\ (ToBoolean v = true <-> hiddenInChain el))
  /\ sampleFrames < S sampleFrames
  /\ isHidden sampleFrames (descendant (S sampleFrames) el) = Throw RangeError.
Proof.
  intros el.
  assert (Hs : stylesAnswer el).
  { unfold stylesAnswer. cbn.
    repeat (apply List.Forall_cons; [eexists; reflexivity|]). apply List.Forall_nil. }
  assert (Hlen : length (Element.chain el) <= sampleFrames)
    by (apply Nat.leb_le; reflexivity).
  split; [exact Hs|]. split; [exact Hlen|].
  destruct (isHidden_walks_the_chain sampleFrames el Hs) as (Hret & _ & _ & Hdeep).
  split; [exact (Hret Hlen)|]. split; [apply Nat.lt_succ_diag_r|].
  apply Hdeep. apply Nat.lt_succ_diag_r.
Defined.

(** C8 does not hold as stated.  A column under as many displayed ancestors
    as the stack has frames: the chain is finite, every style query is
    answered and no element is display "none", yet the test does not report
    the column as not hidden; the recursion runs out of frames and throws. *)
Lemma deep_chain_exhausts_the_stack :
  let el := descendant sampleFrames html in
  stylesAnswer el
  /\ ~ hiddenInChain el
  /\ length (Element.chain el) = S sampleFrames
  /\ isHidden sampleFrames el = Throw RangeError.
Proof.
  cbv zeta. split; [|split; [|split]].
  - apply stylesAnswer_descendant. unfold stylesAnswer. cbn.
    apply List.Forall_cons; [eexists; reflexivity|apply List.Forall_nil].
  - intros Hh. apply hiddenInChain_descendant in Hh. unfold hiddenInChain in Hh.
    cbn in Hh. apply Exists_cons in Hh as [(style & [= <-] & Hnone)|Hh];
      [discriminate Hnone|inversion Hh].
  - rewrite chain_descendant. change (length (Element.chain html)) with 1.
    apply Nat.add_1_r.
  - rewrite isHidden_descendant, Nat.leb_refl, Nat.sub_diag. reflexivity.
Qed.

Lemma log_line_is_the_template_witness :
  let h0 := page 800 0 [anonymous 900 200] in
  let hs := [page 800 10 [anonymous 100 200]] in
  let d := Delivery.mk 0 "columnStartVisible"
                       "Column with id: started to become visible on the page." in
  In d (World.console (run h0 hs))
  /\ Element.id_attribute (Window.element h0 0) = None
  /\ exists p, Delivery.type d = Event.type (events p)
               /\ Delivery.line d = logStatus p (Element.id (Window.element h0 0)).
Proof.
  cbv zeta.
  assert (Hin : In (Delivery.mk 0 "columnStartVisible"
                      "Column with id: started to become visible on the page.")
                   (World.console (run (page 800 0 [anonymous 900 200])
                                       [page 800 10 [anonymous 100 200]])))
    by (left; reflexivity).
  split; [exact Hin|]. split; [reflexivity|].
  exact (proj1 (log_line_is_the_template
                  (page 800 0 [anonymous 900 200]) [page 800 10 [anonymous 100 200]]
                  _ Hin)).
Defined.

(** C10. The three notifications of an element do not wait for one
    another: on the first check of this page the direction is down, the top
    of the column is above the viewport and its midpoint inside, and the
    check prints the center line of the column while no start line has been
    printed for it, in this check or before. *)
Theorem center_without_start :
  exists (h0 h : Window.t) (el : Node) (rect : DOMRect.t),
    let w := run h0 [h] in
    ColumnScrollLogger.scrollDirection (World.this w) = Some down
    /\ Element.getBoundingClientRect (Window.element h el) = Normal rect
    /\ Number.lt (DOMRect.top rect) Number.zero = true
    /\ within (Window.innerHeight h) (colCenter rect) = true
    /\ delivered (constructor h0) el center = []
    /\ map Delivery.line (delivered w el center)
       = ["Column with id:A is now more than 50% visible on the page."]
    /\ delivered (constructor h0) el start = []
    /\ delivered w el start = []
    /\ length (pending w el start) = 1.
Proof.
  exists (page 800 0 [column "A" 900 200]), (page 800 10 [column "A" (-50) 200]),
         0, (rectangle (-50) 200).
  cbv zeta. repeat split; vm_compute; reflexivity.
Qed.

(** ** The scenarios of the specification *)

(** Viewport 800, column at top 100 with height 200, scrolling down: the
    first check prints the three lines, a second check with the same
    geometry prints nothing more. *)
Example scenario_three_lines_once :
  let h0 := page 800 0 [column "A" 900 200] in
  lines (run h0 [page 800 10 [column "A" 100 200]; page 800 20 [column "A" 100 200]])
  = ["Column with id:A started to become visible on the page.";
     "Column with id:A is now more than 50% visible on the page.";
     "Column with id:A is now fully visible on the page."].
Proof. vm_compute. reflexivity. Qed.

(** Viewport 150, the same column: only start at first; once the top is at
    -50 the midpoint 50 is inside, and the bottom, exactly 150, is not. *)
Example scenario_column_taller_than_viewport :
  let h0 := page 150 0 [column "A" 900 200] in
  lines (run h0 [page 150 10 [column "A" 100 200]])
  = ["Column with id:A started to become visible on the page."]
  /\ lines (run h0 [page 150 10 [column "A" 100 200]; page 150 160 [column "A" (-50) 200]])
     = ["Column with id:A started to become visible on the page.";
        "Column with id:A is now more than 50% visible on the page."].
Proof. split; vm_compute; reflexivity. Qed.

(** Scrolling up, the bottom is the start: with the bottom inside the
    viewport and the top above it, start and center are printed, end is not. *)
Example scenario_scrolling_up :
  let h0 := page 800 0 [column "A" 900 400] in
  lines (run h0 [page 800 2000 [column "A" (-1100) 400];
                 page 800 1000 [column "A" (-100) 400]])
  = ["Column with id:A started to become visible on the page.";
     "Column with id:A is now more than 50% visible on the page."].
Proof. vm_compute. reflexivity. Qed.

(** ** What the constructor captures *)

Lemma flat_map_attached (h : Window.t) (el : Node) (columns : list Node) :
  NoDup columns ->
  flat_map (fun c => if Nat.eqb c el then attached h c else []) columns
  = if bool_decide (el ∈ columns) then attached h el else [].
Proof.
  intros Hnd. induction Hnd as [|c columns Hnotin Hnd IH]; [reflexivity|].
  cbn [flat_map]. rewrite IH. destruct (Nat.eqb_spec c el) as [->|Hne].
  - rewrite (bool_decide_eq_true_2 (el ∈ el :: columns)) by apply list_elem_of_here.
    rewrite (bool_decide_eq_false_2 (el ∈ columns)) by exact Hnotin.
    apply app_nil_r.
  - cbn [app]. apply (f_equal (fun b : bool => if b then attached h el else [])).
    apply bool_decide_ext. rewrite elem_of_cons. split; [now right|].
    intros [Heq|Hin]; [now destruct Hne|exact Hin].
Qed.

(** X1. The constructor keeps the node list the page gives for [.column], prints
    nothing, leaves direction and offset unset, and attaches to each element
    of the list exactly the three once-only listeners, and none to any other
    element. *)
Theorem constructor_attaches_three (h : Window.t) (el : Node) :
  NoDup (Window.querySelectorAll h ".column") ->
  World.this (constructor h)
  = ColumnScrollLogger.mk (Window.querySelectorAll h ".column") None None
  /\ World.console (constructor h) = []
  /\ listenersOf (constructor h) el
     = if bool_decide (el ∈ Window.querySelectorAll h ".column")
       then attached h el else [].
Proof.
  intros Hnd. split; [reflexivity|]. split; [apply constructor_console|].
  rewrite constructor_listeners. now apply flat_map_attached.
Qed.

Lemma constructor_attaches_three_witness :
  let h := page 800 0 [column "A" 900 200; column "B" 1200 200] in
  NoDup (Window.querySelectorAll h ".column")
  /\ listenersOf (constructor h) 1 = attached h 1
  /\ listenersOf (constructor h) 2 = [].
Proof.
  cbv zeta.
  assert (Hnd : NoDup (Window.querySelectorAll
                         (page 800 0 [column "A" 900 200; column "B" 1200 200])
                         ".column")).
  { apply NoDup_cons. split; [|apply NoDup_singleton].
    intros Hin. apply list_elem_of_In in Hin. destruct Hin as [H|[]]. discriminate H. }
  split; [exact Hnd|]. split.
  - exact (proj2 (proj2 (constructor_attaches_three _ 1 Hnd))).
  - exact (proj2 (proj2 (constructor_attaches_three _ 2 Hnd))).
Defined.

(** ** Elements that appear later are not tracked *)

Lemma constructor_listeners_tracked (h0 : Window.t) (el : Node) (l : EventListener.t) :
  In l (listenersOf (constructor h0) el) -> In el (Window.querySelectorAll h0 ".column").
Proof.
  rewrite constructor_listeners, in_flat_map. intros (c & Hc & Hl).
  destruct (Nat.eqb_spec c el) as [Heq|_]; [now subst c|destruct Hl].
Qed.

Lemma run_columns (h0 : Window.t) (hs : list Window.t) :
  ColumnScrollLogger.columns (World.this (run h0 hs))
  = Window.querySelectorAll h0 ".column".
Proof.
  unfold run.
  assert (H : forall w, ColumnScrollLogger.columns (World.this (fold_left handleEvent hs w))
                        = ColumnScrollLogger.columns (World.this w)).
  { induction hs as [|h hs IH]; intros w; [reflexivity|]. cbn [fold_left].
    rewrite IH. unfold handleEvent. now rewrite checkColumnPosition_this. }
  now rewrite H.
Qed.

Lemma run_targets (h0 : Window.t) (hs : list Window.t) (d : Delivery.t) :
  In d (World.console (run h0 hs)) ->
  In (Delivery.target d) (Window.querySelectorAll h0 ".column").
Proof.
  revert d. unfold run.
  apply (fold_handleEvent_preserves
           (fun w => (forall el l, In l (listenersOf w el) ->
                                   In el (Window.querySelectorAll h0 ".column"))
                     /\ forall d, In d (World.console w) ->
                                  In (Delivery.target d)
                                     (Window.querySelectorAll h0 ".column"))).
  - intros w this H. exact H.
  - intros el p w [Hl Hc]. split.
    + intros el' l. destruct (Nat.eq_dec el el') as [<-|Hne].
      * rewrite listenersOf_dispatch_same, filter_In. intros [Hin _]. now apply (Hl el l).
      * rewrite listenersOf_dispatch_other by assumption. apply Hl.
    + intros d. unfold dispatchEvent. cbn [World.console]. rewrite in_app_iff.
      intros [Hd|Hd]; [now apply Hc|].
      apply in_map_iff in Hd as (l & <- & Hin). apply filter_In in Hin as [Hin _].
      cbn. now apply (Hl el l).
  - split; [apply constructor_listeners_tracked|].
    rewrite constructor_console. intros d [].
Qed.

(** X2. The node list is captured once: whatever the page looks like at later
    events, the instance keeps the list it was built with, and every line on
    the console is for an element of that list.  An element that matches
    [.column] only later never prints. *)
Theorem only_captured_columns_print (h0 : Window.t) (hs : list Window.t) :
  ColumnScrollLogger.columns (World.this (run h0 hs))
  = Window.querySelectorAll h0 ".column"
  /\ forall d, In d (World.console (run h0 hs)) ->
               In (Delivery.target d) (Window.querySelectorAll h0 ".column").
Proof. split; [apply run_columns|apply run_targets]. Qed.

Lemma only_captured_columns_print_witness :
  let h0 := page 800 0 [column "A" 900 200] in
  let hs := [page 800 10 [column "A" 100 200; column "B" 300 200]] in
  Window.querySelectorAll (page 800 10 [column "A" 100 200; column "B" 300 200]) ".column"
  = [0; 1]
  /\ In (lineOf h0 0 start) (World.console (run h0 hs))
  /\ In 0 (Window.querySelectorAll h0 ".column").
Proof.
  cbv zeta. split; [reflexivity|].
  assert (Hin : In (lineOf (page 800 0 [column "A" 900 200]) 0 start)
                   (World.console
                      (run (page 800 0 [column "A" 900 200])
                           [page 800 10 [column "A" 100 200; column "B" 300 200]])))
    by (left; reflexivity).
  split; [exact Hin|].
  exact (proj2 (only_captured_columns_print _ _) _ Hin).
Defined.



(** ** Lines printed and listeners attached add up *)

Lemma dispatch_moves (el : Node) (ev : Event.t) (w : World.t) :
  allOnce w ->
  length (World.console (dispatchEvent el ev w))
  = length (World.console w)
    + length (List.filter (listens (Event.type ev)) (listenersOf w el))
  /\ length (listenersOf (dispatchEvent el ev w) el)
     + length (List.filter (listens (Event.type ev)) (listenersOf w el))
     = length (listenersOf w el).
Proof.
  intros Hw. split.
  - unfold dispatchEvent. cbn [World.console]. now rewrite length_app, length_map.
  - rewrite listenersOf_dispatch_same.
    assert (Hls : forall l, In l (listenersOf w el) -> EventListener.once l = true)
      by (intros l; apply Hw).
    induction (listenersOf w el) as [|l ls IH]; [reflexivity|]. cbn [List.filter].
    rewrite (Hls l (or_introl eq_refl)), andb_true_r.
    specialize (IH (fun l' H => Hls l' (or_intror H))).
    destruct (listens (Event.type ev) l); cbn [negb length]; lia.
Qed.

Lemma sum_list_update (f g : Node -> nat) (el : Node) (columns : list Node) :
  (forall c, c <> el -> f c = g c) ->
  NoDup columns ->
  sum_list (map f columns) + (if bool_decide (el ∈ columns) then g el else 0)
  = sum_list (map g columns) + (if bool_decide (el ∈ columns) then f el else 0).
Proof.
  intros Hfg Hnd. induction Hnd as [|c columns Hnotin Hnd IH]; [reflexivity|].
  cbn. destruct (decide (c = el)) as [->|Hne].
  - rewrite (bool_decide_eq_true_2 (el ∈ el :: columns)) by apply list_elem_of_here.
    rewrite (bool_decide_eq_false_2 (el ∈ columns)) in IH by exact Hnotin. lia.
  - rewrite (Hfg c Hne).
    assert (Hb : bool_decide (el ∈ c :: columns) = bool_decide (el ∈ columns)).
    { apply bool_decide_ext. rewrite elem_of_cons. split; [|now right].
      intros [Heq|Hin]; [now destruct Hne|exact Hin]. }
    rewrite Hb. lia.
Qed.

Lemma sum_list_map_const (f : Node -> nat) (k : nat) (columns : list Node) :
  (forall c, c ∈ columns -> f c = k) -> sum_list (map f columns) = k * length columns.
Proof.
  induction columns as [|c cs IH]; intros Hf; [cbn; lia|]. cbn.
  rewrite (Hf c) by apply list_elem_of_here.
  rewrite IH; [lia|]. intros c' Hc'. apply Hf. now apply list_elem_of_further.
Qed.

Lemma dispatch_conserves (columns : list Node) (el : Node) (ev : Event.t) (w : World.t) :
  NoDup columns ->
  allOnce w ->
  (forall c l, In l (listenersOf w c) -> c ∈ columns) ->
  length (World.console (dispatchEvent el ev w))
  + attachedCount (dispatchEvent el ev w) columns
  = length (World.console w) + attachedCount w columns.
Proof.
  intros Hnd Hw Htracked. destruct (dispatch_moves el ev w Hw) as [Hc Hl].
  unfold attachedCount.
  pose proof (sum_list_update
                (fun c => length (listenersOf (dispatchEvent el ev w) c))
                (fun c => length (listenersOf w c)) el columns) as Hsum.
  cbv beta in Hsum.
  specialize (Hsum (fun c Hne => f_equal (@length _)
                                   (listenersOf_dispatch_other el c ev w
                                      (fun H => Hne (eq_sym H)))) Hnd).
  destruct (bool_decide (el ∈ columns)) eqn:Hin; [lia|].
  apply bool_decide_eq_false_1 in Hin.
  destruct (listenersOf w el) as [|l ls] eqn:Hls; [cbn in *; lia|].
  exfalso. apply Hin, (Htracked el l). rewrite Hls. now left.
Qed.

(** X4. At every moment the lines on the console and the listeners still
    attached to the captured elements add up to three per captured element:
    a line is printed only by using up a listener.  In particular the console
    never holds more than three lines per element. *)
Theorem lines_and_listeners_add_up (h0 : Window.t) (hs : list Window.t) :
  let columns := Window.querySelectorAll h0 ".column" in
  NoDup columns ->
  length (World.console (run h0 hs)) + attachedCount (run h0 hs) columns
  = 3 * length columns
  /\ length (World.console (run h0 hs)) <= 3 * length columns.
Proof.
  cbv zeta. intros Hnd.
  set (columns := Window.querySelectorAll h0 ".column") in *.
  assert (H : allOnce (run h0 hs)
              /\ (forall c l, In l (listenersOf (run h0 hs) c) -> c ∈ columns)
              /\ length (World.console (run h0 hs)) + attachedCount (run h0 hs) columns
                 = 3 * length columns); [|lia].
  unfold run.
  apply (fold_handleEvent_preserves
           (fun w => allOnce w
                     /\ (forall c l, In l (listenersOf w c) -> c ∈ columns)
                     /\ length (World.console w) + attachedCount w columns
                        = 3 * length columns)).
  - intros w this Hw. exact Hw.
  - intros el p w (Hall & Htracked & Hsum).
    split; [now apply dispatch_allOnce|]. split.
    + intros c l. destruct (Nat.eq_dec el c) as [<-|Hne].
      * rewrite listenersOf_dispatch_same, filter_In. intros [Hin _].
        now apply (Htracked el l).
      * rewrite listenersOf_dispatch_other by assumption. apply Htracked.
    + now rewrite dispatch_conserves.
  - split; [apply constructor_allOnce|]. split.
    + intros c l Hin. apply list_elem_of_In.
      now apply (constructor_listeners_tracked h0 c l).
    + rewrite constructor_console. cbn [length]. unfold attachedCount.
      fold columns.
      assert (Heach : forall c, c ∈ columns ->
                                length (listenersOf (constructor h0) c) = 3).
      { intros c Hc. rewrite constructor_listeners. fold columns.
        rewrite flat_map_attached by exact Hnd.
        now rewrite bool_decide_eq_true_2. }
      rewrite (sum_list_map_const _ 3 columns Heach). lia.
Qed.

Lemma lines_and_listeners_add_up_witness :
  let h0 := page 800 0 [column "A" 900 200; column "B" 1200 200] in
  let hs := [page 800 10 [column "A" 100 200; column "B" 700 200]] in
  NoDup (Window.querySelectorAll h0 ".column")
  /\ length (World.console (run h0 hs)) = 4
  /\ attachedCount (run h0 hs) (Window.querySelectorAll h0 ".column") = 2
  /\ length (World.console (run h0 hs)) <= 3 * 2.
Proof.
  cbv zeta.
  assert (Hnd : NoDup (Window.querySelectorAll
                         (page 800 0 [column "A" 900 200; column "B" 1200 200])
                         ".column")).
  { apply NoDup_cons. split; [|apply NoDup_singleton].
    intros Hin. apply list_elem_of_In in Hin. destruct Hin as [H|[]]. discriminate H. }
  split; [exact Hnd|]. split; [reflexivity|]. split; [reflexivity|].
  exact (proj2 (lines_and_listeners_add_up
                  (page 800 0 [column "A" 900 200; column "B" 1200 200])
                  [page 800 10 [column "A" 100 200; column "B" 700 200]] Hnd)).
Defined.

(** ** A rendered element in view prints its line *)

Lemma pending_nil_dispatch (el el' : Node) (p q : position) (w : World.t) :
  allOnce w -> pending w el p = [] ->
  pending (dispatchEvent el' (events q) w) el p = [].
Proof.
  intros Hw Hnil. destruct (Nat.eq_dec el' el) as [->|Hne].
  - destruct (decide (q = p)) as [->|Hq].
    + now apply pending_dispatch_same.
    + now rewrite pending_dispatch_other by now right.
  - now rewrite pending_dispatch_other by now left.
Qed.

Lemma notify_allOnce (viewportHeight : Number.t) (d : direction) (rect : DOMRect.t)
  (el : Node) (w : World.t) :
  allOnce w -> allOnce (notify viewportHeight d rect el w).
Proof.
  apply (notify_preserves allOnce el). intros p x. apply dispatch_allOnce.
Qed.

Lemma pending_notify_keeps (viewportHeight : Number.t) (d : direction) (rect : DOMRect.t)
  (el el' : Node) (p : position) (w : World.t) :
  allOnce w -> pending w el p = [] ->
  pending (notify viewportHeight d rect el' w) el p = [].
Proof.
  intros Hw Hnil.
  apply (notify_preserves (fun x => allOnce x /\ pending x el p = []) el');
    [|now split].
  intros q x [Hx Hp]. split; [now apply dispatch_allOnce|now apply pending_nil_dispatch].
Qed.

Lemma pending_notify_fired (viewportHeight : Number.t) (d : direction) (rect : DOMRect.t)
  (el : Node) (p : position) (w : World.t) :
  allOnce w -> within viewportHeight (point d p rect) = true ->
  pending (notify viewportHeight d rect el w) el p = [].
Proof.
  intros Hw Hin. rewrite notify_unfold. cbv beta zeta.
  assert (Hkeep : forall q x, allOnce x /\ pending x el p = [] ->
                    allOnce (if within viewportHeight (point d q rect)
                             then dispatchEvent el (events q) x else x)
                    /\ pending (if within viewportHeight (point d q rect)
                                then dispatchEvent el (events q) x else x) el p = []).
  { intros q x [Hx Hp]. destruct (within viewportHeight (point d q rect)); [|now split].
    split; [now apply dispatch_allOnce|now apply pending_nil_dispatch]. }
  assert (Hstep : forall q x, allOnce x ->
                    allOnce (if within viewportHeight (point d q rect)
                             then dispatchEvent el (events q) x else x)).
  { intros q x Hx. destruct (within viewportHeight (point d q rect)); [|exact Hx].
    now apply dispatch_allOnce. }
  destruct p.
  - apply Hkeep, Hkeep. rewrite Hin. split; [now apply dispatch_allOnce|].
    now apply pending_dispatch_same.
  - apply Hkeep. rewrite Hin. split; [now apply dispatch_allOnce, Hstep|].
    now apply pending_dispatch_same, Hstep.
  - rewrite Hin. now apply pending_dispatch_same, Hstep, Hstep.
Qed.

Lemma forEach_establishes (I Q : World.t -> Prop)
  (f : Node -> World.t -> completion World.t) (el : Node) :
  (forall c x x', f c x = Normal x' -> I x -> I x') ->
  (forall c x x', f c x = Normal x' -> I x -> Q x -> Q x') ->
  (forall x x', f el x = Normal x' -> I x -> Q x') ->
  forall columns w,
    In el columns -> snd (forEach f columns w) = Normal tt -> I w ->
    Q (fst (forEach f columns w)).
Proof.
  intros HI HQ Hel columns. induction columns as [|c columns IH]; intros w Hin Hret Hw;
    [destruct Hin|].
  cbn in Hret |- *. destruct (f c w) as [w'|e] eqn:Hf; [|discriminate Hret].
  destruct Hin as [->|Hin].
  - assert (Hq : Q w') by now apply (Hel w w').
    assert (Hi : I w') by now apply (HI el w w').
    clear IH Hf Hw. revert w' Hret Hq Hi.
    induction columns as [|c columns IH]; intros w' Hret Hq Hi; [exact Hq|].
    cbn in Hret |- *. destruct (f c w') as [w''|e] eqn:Hf; [|discriminate Hret].
    apply IH; [exact Hret|now apply (HQ c w' w'')|now apply (HI c w' w'')].
  - apply IH; [exact Hin|exact Hret|now apply (HI c w w')].
Qed.

Lemma run_budget_tracked (h0 : Window.t) (hs : list Window.t) (el : Node) (p : position) :
  NoDup (Window.querySelectorAll h0 ".column") ->
  In el (Window.querySelectorAll h0 ".column") ->
  allOnce (run h0 hs) /\ budget (run h0 hs) el p = 1.
Proof.
  intros Hnd Hin. unfold run.
  apply (fold_handleEvent_preserves (fun w => allOnce w /\ budget w el p = 1)).
  - intros w this H. exact H.
  - intros el' q w [Hall Hb]. split; [now apply dispatch_allOnce|].
    now rewrite dispatch_budget.
  - split; [apply constructor_allOnce|].
    unfold budget, pending, delivered. rewrite constructor_console, constructor_listeners.
    rewrite flat_map_attached by exact Hnd.
    rewrite bool_decide_eq_true_2 by now apply list_elem_of_In.
    now rewrite attached_pending.
Qed.

(** X5. Once-only is also at-least-once: when a check returns, a captured
    element that is rendered and has the point of a position within the
    viewport has that position's line on the console afterwards, exactly
    once, whether this check printed it or an earlier one. *)
Theorem rendered_in_view_prints (h0 : Window.t) (hs : list Window.t) (h : Window.t)
  (el : Node) (p : position) (d : direction) (rect : DOMRect.t) (v : value) :
  NoDup (Window.querySelectorAll h0 ".column") ->
  In el (Window.querySelectorAll h0 ".column") ->
  snd (checkColumnPosition h (run h0 hs)) = Normal tt ->
  ColumnScrollLogger.scrollDirection
    (getScrollDirection h (World.this (run h0 hs))) = Some d ->
  Element.getBoundingClientRect (Window.element h el) = Normal rect ->
  isHidden (Window.stackFrames h) (Window.element h el) = Normal v ->
  ToBoolean v = false ->
  within (Window.innerHeight h) (point d p rect) = true ->
  delivered (run h0 (hs ++ [h])) el p = [lineOf h0 el p].
Proof.
  intros Hnd Hin Hret Hd Hrect Hv Hb Hwithin.
  destruct (run_budget_tracked h0 hs el p Hnd Hin) as [Hall _].
  destruct (run_budget_tracked h0 (hs ++ [h]) el p Hnd Hin) as [_ Hbudget].
  assert (Hpending : pending (run h0 (hs ++ [h])) el p = []).
  { unfold run. rewrite fold_left_app. cbn [fold_left]. fold (run h0 hs).
    unfold handleEvent. unfold checkColumnPosition in Hret |- *.
    set (w1 := World.mk (getScrollDirection h (World.this (run h0 hs))) _ _) in *.
    assert (Hcols : ColumnScrollLogger.columns (World.this w1)
                    = Window.querySelectorAll h0 ".column") by apply run_columns.
    rewrite Hcols in Hret |- *.
    apply (fun HI HQ Hel =>
             forEach_establishes
               (fun x => allOnce x /\ World.this x = World.this w1)
               (fun x => pending x el p = []) (checkColumn h) el HI HQ Hel
               (Window.querySelectorAll h0 ".column") w1 Hin Hret
               (conj Hall eq_refl)).
    - intros c x x' Hc [Hx Hthis]. split.
      + exact (checkColumn_preserves allOnce h c
                 (fun q y => dispatch_allOnce c (events q) y) x x' Hc Hx).
      + now rewrite (checkColumn_this h c x x' Hc).
    - intros c x x' Hc [Hx _] Hp.
      destruct (checkColumn_Normal h c x x' Hc)
        as [->|(d' & rect' & v' & _ & _ & _ & _ & ->)]; [exact Hp|].
      now apply pending_notify_keeps.
    - intros x x' Hc [Hx Hthis].
      rewrite (checkColumn_rendered h el x d rect v) in Hc;
        [|now rewrite Hthis|exact Hrect|exact Hv|exact Hb].
      injection Hc as <-. now apply pending_notify_fired. }
  unfold budget in Hbudget. rewrite Hpending in Hbudget. cbn [length] in Hbudget.
  pose proof (run_templated h0 (hs ++ [h])) as Hall'.
  rewrite List.Forall_forall in Hall'.
  destruct (delivered (run h0 (hs ++ [h])) el p) as [|x [|y l]] eqn:Hdel;
    try discriminate Hbudget.
  assert (Hx : In x (delivered (run h0 (hs ++ [h])) el p)) by (rewrite Hdel; now left).
  unfold delivered in Hx. apply filter_In in Hx as [Hx Hkey].
  apply andb_true_iff in Hkey as [Ht Hty].
  apply Nat.eqb_eq in Ht. apply String.eqb_eq in Hty.
  destruct (Hall' x Hx) as (q & Hq & Hline).
  assert (q = p) as -> by (apply events_type_inj; rewrite <- Hq, Hty; apply String.eqb_refl).
  f_equal. destruct x as [t ty ln]. cbn in *. subst. reflexivity.
Qed.

Lemma rendered_in_view_prints_witness :
  let h0 := page 800 0 [column "A" 900 200] in
  let hs := [page 800 10 [column "A" 100 200]] in
  let h := page 800 20 [column "A" 90 200] in
  NoDup (Window.querySelectorAll h0 ".column")
  /\ within (Window.innerHeight h) (point down start (rectangle 90 200)) = true
  /\ delivered (run h0 (hs ++ [h])) 0 start = [lineOf h0 0 start].
Proof.
  cbv zeta.
  assert (Hnd : NoDup (Window.querySelectorAll
                         (page 800 0 [column "A" 900 200]) ".column"))
    by apply NoDup_singleton.
  split; [exact Hnd|]. split; [reflexivity|].
  apply (rendered_in_view_prints
           (page 800 0 [column "A" 900 200]) [page 800 10 [column "A" 100 200]]
           (page 800 20 [column "A" 90 200]) 0 start down (rectangle 90 200) undefined Hnd).
  - left. reflexivity.
  - reflexivity.
  - reflexivity.
  - reflexivity.
  - reflexivity.
  - reflexivity.
  - reflexivity.
Defined.

(** ** The order of the lines of one element *)

Lemma console_dispatch (el : Node) (ev : Event.t) (w : World.t) :
  World.console (dispatchEvent el ev w)
  = World.console w
    ++ map (fun l => Delivery.mk el (Event.type ev) (call (EventListener.callback l)))
           (List.filter (listens (Event.type ev)) (listenersOf w el)).
Proof. reflexivity. Qed.

(** X6. The first time a rendered element is checked with its three listeners
    attached, the callback prints the lines of the positions whose points
    are within the viewport, in the order start, center, end, and nothing
    else. *)
Theorem fresh_column_prints_in_order (h0 h : Window.t) (el : Node) (w : World.t)
  (d : direction) (rect : DOMRect.t) (v : value) :
  listenersOf w el = attached h0 el ->
  ColumnScrollLogger.scrollDirection (World.this w) = Some d ->
  Element.getBoundingClientRect (Window.element h el) = Normal rect ->
  isHidden (Window.stackFrames h) (Window.element h el) = Normal v ->
  ToBoolean v = false ->
  exists w',
    checkColumn h el w = Normal w'
    /\ World.console w'
       = World.console w
         ++ map (lineOf h0 el)
                (List.filter (fun p => within (Window.innerHeight h) (point d p rect))
                             [start; center; end_]).
Proof.
  intros Hl Hd Hrect Hv Hb. eexists. split.
  - now apply (checkColumn_rendered h el w d rect v).
  - rewrite notify_unfold. cbv beta zeta. cbn [List.filter].
    destruct (within (Window.innerHeight h) (point d start rect));
      destruct (within (Window.innerHeight h) (point d center rect));
      destruct (within (Window.innerHeight h) (point d end_ rect));
      rewrite ?console_dispatch, ?listenersOf_dispatch_same, ?Hl;
      cbn; rewrite <- ?app_assoc, ?app_nil_r; reflexivity.
Qed.

Lemma fresh_column_prints_in_order_witness :
  let h0 := page 800 0 [column "A" 900 200] in
  let h := page 800 10 [column "A" (-50) 200] in
  let w := run h0 [page 800 5 [column "A" 900 200]] in
  listenersOf w 0 = attached h0 0
  /\ exists w', checkColumn h 0 w = Normal w'
                /\ World.console w' = [lineOf h0 0 center; lineOf h0 0 end_].
Proof.
  cbv zeta. split; [reflexivity|].
  exact (fresh_column_prints_in_order
           (page 800 0 [column "A" 900 200]) (page 800 10 [column "A" (-50) 200]) 0
           (run (page 800 0 [column "A" 900 200]) [page 800 5 [column "A" 900 200]])
           down (rectangle (-50) 200) undefined
           eq_refl eq_refl eq_refl eq_refl eq_refl).
Defined.

(** ** Two events at one offset *)

Lemma lt_irrefl (x : Number.t) : Number.lt x x = false.
Proof.
  unfold Number.lt, SFltb. number_cases x; try reflexivity;
    now rewrite Z.compare_refl, Pos.compare_cont_refl.
Qed.

Lemma le_zero_not_gt (x : Number.t) :
  Number.le x Number.zero = true -> Number.gt x Number.zero = false.
Proof. number_cases x; intros H; try discriminate H; reflexivity. Qed.

Lemma not_gt_clamp (x : Number.t) :
  Number.gt x (if Number.le x Number.zero then Number.zero else x) = false.
Proof.
  destruct (Number.le x Number.zero) eqn:Hle.
  - now apply le_zero_not_gt.
  - apply lt_irrefl.
Qed.

(** X7. An event that finds the scroll offset where the previous event left it
    (a resize, or a scroll event without movement) resolves to up, whatever
    the direction was, and stores the same offset again. *)
Theorem same_offset_resolves_up (h h' : Window.t) (this : ColumnScrollLogger.t) :
  st h' = st h ->
  let this' := getScrollDirection h this in
  ColumnScrollLogger.scrollDirection (getScrollDirection h' this') = Some up
  /\ ColumnScrollLogger.lastScrollStart (getScrollDirection h' this')
     = ColumnScrollLogger.lastScrollStart this'.
Proof.
  intros Hst. cbv zeta. unfold getScrollDirection.
  cbn [ColumnScrollLogger.scrollDirection ColumnScrollLogger.lastScrollStart
       Number.of_nullable default].
  rewrite Hst, not_gt_clamp. split; reflexivity.
Qed.

Lemma same_offset_resolves_up_witness :
  let h := page 800 300 [] in
  let h' := page 500 300 [] in
  let this := World.this (constructor h) in
  st h' = st h
  /\ ColumnScrollLogger.scrollDirection (getScrollDirection h this) = Some down
  /\ ColumnScrollLogger.scrollDirection
       (getScrollDirection h' (getScrollDirection h this)) = Some up.
Proof.
  cbv zeta. split; [reflexivity|]. split; [reflexivity|].
  exact (proj1 (same_offset_resolves_up (page 800 300 []) (page 500 300 [])
                  (World.this (constructor (page 800 300 []))) eq_refl)).
Defined.

(** ** The hidden test stops at the first element that decides *)

Lemma chain_nonempty (el : Element.t) : Element.chain el <> [].
Proof. rewrite chain_cons. discriminate. Qed.

(** X8. Going up from the element, the first element that is display "none"
    or whose style query throws decides the test, when the stack has a frame
    for it and for each element below it: what lies above it is not queried,
    so neither a hidden nor a failing ancestor further up matters.  When the
    displayed elements below it are at least as many as the frames, the test
    throws [RangeError] before it gets there. *)
Theorem isHidden_first_decisive (frames : nat) (el a : Element.t)
  (below above : list Element.t) :
  Element.chain el = below ++ a :: above ->
  Forall (fun b => exists style,
                     Element.getComputedStyle b = Normal style
                     /\ CSSStyleDeclaration.display style <> "none") below ->
  (length below < frames ->
   (Element.displayNone a -> isHidden frames el = Normal (boolean true))
   /\ (forall e, Element.getComputedStyle a = Throw e -> isHidden frames el = Throw e))
  /\ (frames <= length below -> isHidden frames el = Throw RangeError).
Proof.
  revert frames below.
  induction el as [i r c|i r c parent IH] using Element_parent_ind;
    intros frames below Hchain Hbelow; rewrite chain_cons in Hchain; cbn in Hchain;
    (destruct frames as [|frames];
     [split; [intros Hlen; exfalso; lia|reflexivity]|]).
  - destruct below as [|b [|b' below]]; try discriminate Hchain.
    injection Hchain as <- _. split; [|cbn; lia]. intros _. split.
    + intros (style & Hs & Hnone). cbn in Hs. subst c. cbn. now rewrite Hnone.
    + intros e He. cbn in He. subst c. reflexivity.
  - destruct below as [|b below].
    + injection Hchain as <- _. split; [|cbn; lia]. intros _. split.
      * intros (style & Hs & Hnone). cbn in Hs. subst c. cbn. now rewrite Hnone.
      * intros e He. cbn in He. subst c. reflexivity.
    + injection Hchain as <- Hchain.
      apply Forall_cons in Hbelow as [(style & Hs & Hshown) Hbelow].
      cbn in Hs. subst c. apply String.eqb_neq in Hshown.
      destruct (IH frames below Hchain Hbelow) as [Hreach Hdeep].
      split.
      * intros Hlen. cbn in Hlen. destruct Hreach as [Hnone Hthrow]; [lia|].
        split; [intros Ha|intros e Ha]; cbn; rewrite Hshown; auto.
      * intros Hlen. cbn in Hlen. cbn. rewrite Hshown. apply Hdeep. lia.
Qed.

Lemma isHidden_first_decisive_witness :
  let unanswered :=
    Element.mk None (Normal (rectangle 0 0)) (Throw (HostError "getComputedStyle"))
               None in
  let hidden :=
    Element.mk None (Normal (rectangle 0 0)) (Normal display_none) (Some unanswered) in
  let el :=
    Element.mk (Some "A") (Normal (rectangle 100 200)) (Normal display_block)
               (Some hidden) in
  Element.chain el = [el] ++ hidden :: [unanswered]
  /\ Element.displayNone hidden
  /\ isHidden 2 el = Normal (boolean true)
  /\ isHidden 1 el = Throw RangeError.
Proof.
  intros unanswered hidden el. split; [reflexivity|].
  assert (Hnone : Element.displayNone hidden)
    by (exists display_none; split; reflexivity).
  assert (Hshown : Forall (fun b => exists style,
                             Element.getComputedStyle b = Normal style
                             /\ CSSStyleDeclaration.display style <> "none") [el]).
  { apply List.Forall_cons; [|apply List.Forall_nil].
    exists display_block. split; [reflexivity|discriminate]. }
  split; [exact Hnone|]. split.
  - refine (proj1 (proj1 (isHidden_first_decisive 2 el hidden [el] [unanswered]
                            eq_refl Hshown) _) Hnone).
    cbn. lia.
  - refine (proj2 (isHidden_first_decisive 1 el hidden [el] [unanswered]
                     eq_refl Hshown) _).
    cbn. lia.
Defined.

(** ** Dispatching again *)

Lemma filter_filter_same {A} (f : A -> bool) (l : list A) :
  List.filter f (List.filter f l) = List.filter f l.
Proof.
  induction l as [|a l IH]; [reflexivity|]. cbn.
  destruct (f a) eqn:Hf; cbn; rewrite ?Hf, IH; reflexivity.
Qed.

(** X9. With once-only listeners a second dispatch of the same event to the same
    element finds nothing to run: the store after two dispatches is the store
    after one. *)
Theorem dispatch_twice_is_once (el : Node) (ev : Event.t) (w : World.t) :
  allOnce w ->
  dispatchEvent el ev (dispatchEvent el ev w) = dispatchEvent el ev w.
Proof.
  intros Hw. unfold dispatchEvent at 1.
  rewrite listenersOf_dispatch_same.
  assert (Hnone : List.filter (listens (Event.type ev))
                    (List.filter (fun l => negb (listens (Event.type ev) l
                                                 && EventListener.once l))
                                 (listenersOf w el)) = []).
  { apply filter_none. intros l Hl. apply filter_In in Hl as [Hl Hkeep].
    rewrite (Hw el l Hl), andb_true_r in Hkeep. now apply negb_true_iff in Hkeep. }
  rewrite Hnone, filter_filter_same. cbn [map]. rewrite app_nil_r.
  unfold dispatchEvent. cbn [World.this World.listeners World.console].
  now rewrite insert_insert_eq.
Qed.

Lemma dispatch_twice_is_once_witness :
  let w := constructor (page 800 0 [column "A" 900 200]) in
  allOnce w
  /\ World.console (dispatchEvent 0 (events start) w) = [lineOf (page 800 0 [column "A" 900 200]) 0 start]
  /\ dispatchEvent 0 (events start) (dispatchEvent 0 (events start) w)
     = dispatchEvent 0 (events start) w.
Proof.
  cbv zeta. split; [apply constructor_allOnce|]. split; [reflexivity|].
  apply (dispatch_twice_is_once 0 (events start)). apply constructor_allOnce.
Defined.

(** ** The console only grows, the listener lists only shrink *)

Lemma sublist_filter {A} (f : A -> bool) (l : list A) : sublist (List.filter f l) l.
Proof.
  induction l as [|a l IH]; [constructor|]. cbn.
  destruct (f a); [now apply sublist_skip|now apply sublist_cons].
Qed.

(** X10. More events never take a line off the console nor reorder it, and never
    attach a listener again: the console after more events extends the
    console before, and each element's listener list is a sublist of what it
    was. *)
Theorem run_extends (h0 : Window.t) (hs hs' : list Window.t) :
  (exists printed, World.console (run h0 (hs ++ hs'))
                   = World.console (run h0 hs) ++ printed)
  /\ forall el, sublist (listenersOf (run h0 (hs ++ hs')) el)
                        (listenersOf (run h0 hs) el).
Proof.
  unfold run at 1 3. rewrite fold_left_app. fold (run h0 hs).
  apply (fold_handleEvent_preserves
           (fun w => (exists printed, World.console w
                                      = World.console (run h0 hs) ++ printed)
                     /\ forall el, sublist (listenersOf w el)
                                           (listenersOf (run h0 hs) el))).
  - intros w this H. exact H.
  - intros el p w [(printed & Hc) Hl]. split.
    + rewrite console_dispatch, Hc, <- app_assoc. eauto.
    + intros el'. destruct (Nat.eq_dec el el') as [<-|Hne].
      * rewrite listenersOf_dispatch_same.
        etransitivity; [apply sublist_filter|apply Hl].
      * rewrite listenersOf_dispatch_other by assumption. apply Hl.
  - split; [exists []; now rewrite app_nil_r|reflexivity].
Qed.

(** ** A viewport without height *)

Lemma within_positive (viewportHeight x : Number.t) :
  within viewportHeight x = true -> Number.lt Number.zero viewportHeight = true.
Proof.
  unfold within. intros H. apply andb_true_iff in H as [H0 Hx]. revert H0 Hx.
  unfold Number.lt, SFltb.
  destruct x as [s|s| |s m e]; try destruct s; cbn; try discriminate;
    intros _; destruct viewportHeight as [s'|s'| |s' m' e']; try destruct s'; cbn;
    try discriminate; reflexivity.
Qed.

Lemma notify_nothing_within (viewportHeight : Number.t) (d : direction)
  (rect : DOMRect.t) (el : Node) (w : World.t) :
  Number.lt Number.zero viewportHeight = false ->
  notify viewportHeight d rect el w = w.
Proof.
  intros Hvh. rewrite notify_unfold. cbv beta zeta.
  assert (Hout : forall p, within viewportHeight (point d p rect) = false).
  { intros p. destruct (within viewportHeight (point d p rect)) eqn:Hp; [|reflexivity].
    apply within_positive in Hp. rewrite Hp in Hvh. discriminate Hvh. }
  now rewrite !Hout.
Qed.

(** X11. When [window.innerHeight] is not greater than 0 (a window collapsed to
    zero height) a check prints nothing and uses up no listener, whatever the
    geometry of the elements. *)
Theorem collapsed_viewport_prints_nothing (h : Window.t) (w : World.t) :
  Number.lt Number.zero (Window.innerHeight h) = false ->
  World.console (fst (checkColumnPosition h w)) = World.console w
  /\ World.listeners (fst (checkColumnPosition h w)) = World.listeners w.
Proof.
  intros Hvh. unfold checkColumnPosition.
  apply (forEach_preserves
           (fun x => World.console x = World.console w
                     /\ World.listeners x = World.listeners w)); [|split; reflexivity].
  intros el x x' _ H Hx.
  destruct (checkColumn_Normal h el x x' H)
    as [->|(d & rect & v & _ & _ & _ & _ & ->)]; [exact Hx|].
  now rewrite notify_nothing_within.
Qed.

Lemma collapsed_viewport_prints_nothing_witness :
  let h0 := page 800 0 [column "A" 900 200] in
  let h := page 0 10 [column "A" 0 200] in
  Number.lt Number.zero (Window.innerHeight h) = false
  /\ World.console (fst (checkColumnPosition h (constructor h0))) = [].
Proof.
  cbv zeta. split; [reflexivity|].
  exact (proj1 (collapsed_viewport_prints_nothing
                  (page 0 10 [column "A" 0 200])
                  (constructor (page 800 0 [column "A" 900 200])) eq_refl)).
Defined.

(** ** A line names its position *)

Lemma append_cancel_l (s a b : string) : s +:+ a = s +:+ b -> a = b.
Proof. induction s as [|c s IH]; cbn; intros H; [exact H|]. injection H as H. now apply IH. Qed.

Lemma logStatus_inj (id : string) (p q : position) :
  logStatus p id = logStatus q id -> p = q.
Proof.
  unfold logStatus. intros H.
  destruct p, q; try reflexivity; cbn [messages] in H;
    apply append_cancel_l, append_cancel_l in H; discriminate H.
Qed.

(** X12. For one identifier, whatever it is, the three positions print three
    different lines: a line on the console tells which position was
    reached. *)
Theorem log_lines_distinct (id : string) :
  NoDup (map (fun p => logStatus p id) [start; center; end_]).
Proof.
  cbn [map].
  assert (Hnotin : forall p qs, (forall q, In q qs -> p <> q) ->
                     logStatus p id ∉ map (fun q => logStatus q id) qs).
  { intros p qs Hqs Hin. apply list_elem_of_In, in_map_iff in Hin as (q & Heq & Hq).
    apply (Hqs q Hq). symmetry. now apply (logStatus_inj id). }
  apply NoDup_cons. split.
  - apply (Hnotin start [center; end_]). intros q [<-|[<-|[]]]; discriminate.
  - apply NoDup_cons. split; [|apply NoDup_singleton].
    apply (Hnotin center [end_]). intros q [<-|[]]; discriminate.
Qed.

(** ** What a check can throw *)



